(** * Persistence layer of lt-app ([src/js/persistence.ts])

    A shallow embedding of the persistence module: the AsyncStorage
    key-value store, the progress accessors with their recency pointers,
    the preference factory with its eight instances, and the metrics token.

    The module is asynchronous but single-threaded; one caller at a time is
    modelled, every [await] being a sequencing point of a state-and-exception
    monad over the [World] outside the module.  The JavaScript built-ins the
    module relies on (string coercion, [Number::toString], [parseInt],
    [JSON.stringify], [JSON.parse], the [uuid] package's [v4]) are modelled
    from ECMA-262 and RFC 4122 on the values this module can hand them.

    Left out: the React hook [usePreference], which only wraps a getter;
    rejections of the store itself (an AsyncStorage call always succeeds
    here); and the interleaving of several callers, against which the source
    takes no precaution and promises nothing. *)

From Stdlib Require Import ZArith NArith Ascii String List Bool Lia.
From Stdlib Require Import DecimalString DecimalN.
From stdpp Require Import base option strings gmap.

Local Open Scope string_scope.
Local Open Scope Z_scope.
Set Warnings "-register-all".
#[local] Arguments String.append !s1 s2 : simpl nomatch.

(** ** Text helpers *)

Fixpoint zeros (k : nat) : string :=
  match k with
  | O => ""
  | S k' => String "0" (zeros k')
  end.

Fixpoint str_take (k : nat) (s : string) : string :=
  match k, s with
  | S k', String c s' => String c (str_take k' s')
  | _, _ => ""
  end.

Fixpoint str_drop (k : nat) (s : string) : string :=
  match k, s with
  | S k', String _ s' => str_drop k' s'
  | _, _ => s
  end.

Definition is_digit (c : ascii) : bool :=
  let n := N_of_ascii c in ((48 <=? n) && (n <=? 57))%N.

Fixpoint all_digits (s : string) : bool :=
  match s with
  | "" => true
  | String c s' => is_digit c && all_digits s'
  end.

(** The longest prefix of decimal digits, and what follows it. *)
Fixpoint span_digits (s : string) : string * string :=
  match s with
  | String c s' =>
      if is_digit c then let '(ds, rest) := span_digits s' in (String c ds, rest)
      else ("", s)
  | "" => ("", "")
  end.

(** Number of leading ["0"] characters removed, and the remainder. *)
Fixpoint strip_leading_zeros (s : string) : nat * string :=
  match s with
  | String c s' =>
      if Ascii.eqb c "0" then let '(z, r) := strip_leading_zeros s' in (S z, r)
      else (O, s)
  | "" => (O, "")
  end.

Fixpoint strip_trailing_zeros (s : string) : string :=
  match s with
  | String c s' =>
      let t := strip_trailing_zeros s' in
      if Ascii.eqb c "0" && String.eqb t "" then "" else String c t
  | "" => ""
  end.

Fixpoint last_char (s : string) : option ascii :=
  match s with
  | "" => None
  | String c "" => Some c
  | String _ s' => last_char s'
  end.

Definition first_char (s : string) : option ascii :=
  match s with
  | "" => None
  | String c _ => Some c
  end.

(** Decimal numerals of naturals, through the standard library's [Decimal]. *)
Definition dec_of_N (n : N) : string := NilZero.string_of_uint (N.to_uint n).

Definition N_of_dec (ds : string) : N :=
  match NilZero.uint_of_string ds with
  | Some u => N.of_uint u
  | None => 0%N
  end.

(** ** Numbers

    The module never computes with a number: it prints it into a key or a
    JSON text and reads it back.  A Number is therefore kept in the form
    ECMA-262 [Number::toString] prints it from: the digits [s] of the
    shortest decimal that denotes it, without leading or trailing zero, and
    the position [n] of the decimal point, the value being
    [0.s * 10^n].  [-0] is identified with [0].

    A Number is an IEEE 754 binary64.  Not every [Finite s n] is one; those
    that are, are the ones [to_double] below leaves as they are, and
    [number_wf] says so.  Whatever reads a Number from a text ([JSON.parse],
    [parseInt]) rounds the decimal it finds with [to_double]. *)

Inductive number : Type :=
| NaN
| Infinity (negative : bool)
| Zero
| Finite (negative : bool) (digits : string) (point : Z).

Definition number_eqb (x y : number) : bool :=
  match x, y with
  | NaN, NaN | Zero, Zero => true
  | Infinity a, Infinity b => Bool.eqb a b
  | Finite a s n, Finite b t m => Bool.eqb a b && String.eqb s t && (n =? m)
  | _, _ => false
  end.

Definition Number_isFinite (x : number) : bool :=
  match x with
  | Zero | Finite _ _ _ => true
  | NaN | Infinity _ => false
  end.

Definition minus_sign (negative : bool) : string := if negative then "-" else "".

(** The exponent part [Number::toString] prints. *)
Definition exponent_text (e : Z) : string :=
  "e" +:+ (if e <? 0 then "-" else "+") +:+ dec_of_N (Z.abs_N e).

(** ECMA-262 6.1.6.1.20 Number::toString(x, 10), with [k = length s]. *)
Definition Number_toString (x : number) : string :=
  match x with
  | NaN => "NaN"
  | Infinity neg => minus_sign neg +:+ "Infinity"
  | Zero => "0"
  | Finite neg s n =>
      let k := Z.of_nat (String.length s) in
      minus_sign neg +:+
      (if (k <=? n) && (n <=? 21) then s +:+ zeros (Z.to_nat (n - k))
       else if (0 <? n) && (n <=? 21) then
         str_take (Z.to_nat n) s +:+ "." +:+ str_drop (Z.to_nat n) s
       else if (-6 <? n) && (n <=? 0) then "0." +:+ zeros (Z.to_nat (- n)) +:+ s
       else
         str_take 1 s +:+ (if k =? 1 then "" else "." +:+ str_drop 1 s)
         +:+ exponent_text (n - 1))
  end.

(** The Number denoted by the digit string [all] with the decimal point
    after its first [point] digits. *)
Definition number_of_digits (negative : bool) (all : string) (point : Z) : number :=
  let '(z, r) := strip_leading_zeros all in
  match r with
  | "" => Zero
  | _ => Finite negative (strip_trailing_zeros r) (point - Z.of_nat z)
  end.

(** *** Rounding to a double

    A finite double other than zero is [m * 2^(s - 1074)] with
    [0 < m < 2^53] and [0 <= s <= 2045], where [2^52 <= m] unless [s = 0]
    (the subnormal numbers). *)

Inductive binary64 : Type :=
| B64_zero
| B64_finite (m s : Z)
| B64_infinity.

Definition binary64_eqb (a b : binary64) : bool :=
  match a, b with
  | B64_zero, B64_zero | B64_infinity, B64_infinity => true
  | B64_finite m s, B64_finite m' s' => (m =? m') && (s =? s')
  | _, _ => false
  end.

(** The integer nearest to [n / d], the even one of two equally near. *)
Definition round_half_even (n d : Z) : Z :=
  let '(q, r) := Z.div_eucl n d in
  match 2 * r ?= d with
  | Lt => q
  | Gt => q + 1
  | Eq => if Z.even q then q else q + 1
  end.

(** The double nearest to [n / d], for [0 <= n] and [0 < d] (IEEE 754
    roundTiesToEven).  In units of [2^-1074] the value is [u / d]; [shift]
    leaves 53 bits before the binary point; a mantissa rounded up to [2^53]
    moves to the next exponent; past the largest exponent the result is
    infinite. *)
Definition nearest_binary64 (n d : Z) : binary64 :=
  let u := n * 2 ^ 1074 in
  let shift := Z.max 0 (Z.log2 (u / d) - 52) in
  let m := round_half_even u (d * 2 ^ shift) in
  let '(m, s) := if m =? 2 ^ 53 then (2 ^ 52, shift + 1) else (m, shift) in
  if m =? 0 then B64_zero
  else if 2045 <? s then B64_infinity
  else B64_finite m s.

(** The double nearest to the decimal [0.ds * 10^p].  A decimal of at least
    [10^309] is beyond every double, and one below [10^-324] is less than
    half the least of them: these are decided without computing the power
    of ten. *)
Definition binary64_of_decimal (ds : string) (p : Z) : binary64 :=
  let D := Z.of_N (N_of_dec ds) in
  let q := p - Z.of_nat (String.length ds) in
  if D =? 0 then B64_zero
  else if 309 <=? q then B64_infinity
  else if p <=? -324 then B64_zero
  else if 0 <=? q then nearest_binary64 (D * 10 ^ q) 1
  else nearest_binary64 D (10 ^ (- q)).

Definition reads_as (m s : Z) (x : number) : bool :=
  match x with
  | Finite _ ds p => binary64_eqb (binary64_of_decimal ds p) (B64_finite m s)
  | _ => false
  end.

(** The [n] with [10^(n-1) <= m * 2^(s - 1074) < 10^n]. *)
Definition decimal_position (m s : Z) : Z :=
  Z.of_nat (String.length (dec_of_N (Z.to_N (m * 2 ^ s * 10 ^ 400 / 2 ^ 1074)))) - 400.

(** The two decimals of [k] digits on either side of [m * 2^(s - 1074)],
    the nearer first. *)
Definition decimals_near (neg : bool) (m s n k : Z) : list number :=
  let '(a, b) :=
    if k <=? n then (m * 2 ^ s, 2 ^ 1074 * 10 ^ (n - k))
    else (m * 2 ^ s * 10 ^ (k - n), 2 ^ 1074) in
  let near := round_half_even a b in
  let far := if near =? a / b then a / b + 1 else a / b in
  map (fun c => let ds := dec_of_N (Z.to_N c) in
                number_of_digits neg ds (Z.of_nat (String.length ds) + (n - k)))
      [near; far].

(** The decimal expansion of [m * 2^(s - 1074)], which is finite. *)
Definition exact_decimal (neg : bool) (m s : Z) : number :=
  let ds := dec_of_N (Z.to_N (m * 2 ^ s * 5 ^ 1074)) in
  number_of_digits neg ds (Z.of_nat (String.length ds) - 1074).

Fixpoint first_reading (neg : bool) (m s n : Z) (ks : list Z) : option number :=
  match ks with
  | [] => None
  | k :: ks' =>
      match find (reads_as m s) (decimals_near neg m s n k) with
      | Some x => Some x
      | None => first_reading neg m s n ks'
      end
  end.

(** The digits [Number::toString] prints a double with: as few as read
    back as that double, and of those the nearest to it.  Seventeen digits
    always do; the exact expansion stands behind them so that the definition
    does not lean on that. *)
Definition shortest_decimal (neg : bool) (m s : Z) : number :=
  match first_reading neg m s (decimal_position m s) (map Z.of_nat (seq 1 17)) with
  | Some x => x
  | None => exact_decimal neg m s
  end.

(** The Number a decimal denotes: the double nearest to it. *)
Definition to_double (x : number) : number :=
  match x with
  | Finite neg ds p =>
      match binary64_of_decimal ds p with
      | B64_zero => Zero
      | B64_infinity => Infinity neg
      | B64_finite m s => shortest_decimal neg m s
      end
  | _ => x
  end.
#[local] Arguments to_double : simpl never.

Definition normal_digits (s : string) : bool :=
  all_digits s
  && match first_char s with Some c => negb (Ascii.eqb c "0") | None => false end
  && match last_char s with Some c => negb (Ascii.eqb c "0") | None => false end.

(** The Numbers: digits in normal form that denote a double. *)
Definition number_wf (x : number) : bool :=
  match x with
  | Finite _ s _ => normal_digits s && number_eqb (to_double x) x
  | _ => true
  end.

(** The Number of an integer. *)
Definition int (z : Z) : number :=
  let ds := dec_of_N (Z.abs_N z) in
  to_double (number_of_digits (z <? 0) ds (Z.of_nat (String.length ds))).

(** The lesson indices: the integers that [Number::toString] prints in
    plain decimal notation, those below 10^21. *)
Definition is_lesson_index (x : number) : bool :=
  match x with
  | Zero => true
  | Finite _ s n => (Z.of_nat (String.length s) <=? n) && (n <=? 21)
  | _ => false
  end.

(** ** Values

    The data values the module stores and returns: what [JSON.parse] can
    produce and what callers pass to a preference setter.  Strings are
    kept as their UTF-8 bytes.  A property list keeps insertion order (JavaScript
    moves integer-like names to the front, which no function here depends
    on); a property that is absent reads as [undefined], rendered by
    [None]. *)

Inductive JSValue : Type :=
| JSNull
| JSBool (b : bool)
| JSNumber (x : number)
| JSString (s : string)
| JSArray (items : list JSValue)
| JSObject (props : list (string * JSValue)).

Inductive Exception : Type := SyntaxError | TypeError.

Inductive Completion (A : Type) : Type :=
| Normal (a : A)
| Throw (e : Exception).
Arguments Normal {A} a.
Arguments Throw {A} e.

Fixpoint get_prop (k : string) (props : list (string * JSValue)) : option JSValue :=
  match props with
  | [] => None
  | (k', v) :: ps => if String.eqb k k' then Some v else get_prop k ps
  end.

(** Assignment to property [k]: in place when it exists, appended otherwise. *)
Fixpoint set_prop (k : string) (v : JSValue) (props : list (string * JSValue))
  : list (string * JSValue) :=
  match props with
  | [] => [(k, v)]
  | (k', v') :: ps =>
      if String.eqb k k' then (k, v) :: ps else (k', v') :: set_prop k v ps
  end.

Fixpoint indexed {A : Type} (f : A -> JSValue) (i : N) (l : list A)
  : list (string * JSValue) :=
  match l with
  | [] => []
  | a :: l' => (dec_of_N i, f a) :: indexed f (N.succ i) l'
  end.

(** The own enumerable properties an object spread [{...v}] copies. *)
Definition own_props (v : JSValue) : list (string * JSValue) :=
  match v with
  | JSNull | JSBool _ | JSNumber _ => []
  | JSString s => indexed (fun c => JSString (String c "")) 0%N (list_ascii_of_string s)
  | JSArray items => indexed (fun v => v) 0%N items
  | JSObject props => props
  end.

Fixpoint join (sep : string) (parts : list string) : string :=
  match parts with
  | [] => ""
  | [p] => p
  | p :: ps => p +:+ sep +:+ join sep ps
  end.

Fixpoint sequence {A : Type} (l : list (Completion A)) : Completion (list A) :=
  match l with
  | [] => Normal []
  | Normal a :: l' =>
      match sequence l' with
      | Normal r => Normal (a :: r)
      | Throw e => Throw e
      end
  | Throw e :: _ => Throw e
  end.

(** ECMA-262 ToString(ToPrimitive(v)), the coercion of ['' + v].  An array
    joins its elements with commas, [null] elements printing as nothing.  A
    plain object prints through [Object.prototype.toString]; an own data
    property named [toString] hides it and leaves no way to a primitive. *)
Fixpoint ToString (v : JSValue) : Completion string :=
  match v with
  | JSNull => Normal "null"
  | JSBool b => Normal (if b then "true" else "false")
  | JSNumber x => Normal (Number_toString x)
  | JSString s => Normal s
  | JSArray items =>
      match sequence (map (fun i => match i with
                                    | JSNull => Normal ""
                                    | _ => ToString i
                                    end) items) with
      | Normal parts => Normal (join "," parts)
      | Throw e => Throw e
      end
  | JSObject props =>
      match get_prop "toString" props with
      | Some _ => Throw TypeError
      | None => Normal "[object Object]"
      end
  end.

(** ** JSON.stringify *)

Definition dquote : ascii := "034".

Definition hex_digit (n : N) : ascii :=
  ascii_of_N (if (n <? 10)%N then 48 + n else 87 + n).

(** ECMA-262 QuoteJSONString, one character. *)
Definition quote_char (c : ascii) : string :=
  let n := N_of_ascii c in
  if (n =? 8)%N then "\b"
  else if (n =? 9)%N then "\t"
  else if (n =? 10)%N then "\n"
  else if (n =? 12)%N then "\f"
  else if (n =? 13)%N then "\r"
  else if (n =? 34)%N then String "\" (String dquote "")
  else if (n =? 92)%N then "\\"
  else if (n <? 32)%N then
    "\u00" +:+ String (hex_digit (n / 16)) (String (hex_digit (n mod 16)) "")
  else String c "".

Fixpoint quote_chars (s : string) : string :=
  match s with
  | "" => ""
  | String c s' => quote_char c +:+ quote_chars s'
  end.

Definition QuoteJSONString (s : string) : string :=
  String dquote (quote_chars s +:+ String dquote "").

(** ECMA-262 SerializeJSONProperty without indentation; a Number that is not
    finite serialises as [null]. *)
Fixpoint JSON_stringify (v : JSValue) : string :=
  match v with
  | JSNull => "null"
  | JSBool b => if b then "true" else "false"
  | JSNumber x => if Number_isFinite x then Number_toString x else "null"
  | JSString s => QuoteJSONString s
  | JSArray items => "[" +:+ join "," (map JSON_stringify items) +:+ "]"
  | JSObject props =>
      "{" +:+ join "," (map (fun kv => QuoteJSONString (fst kv) +:+ ":"
                                        +:+ JSON_stringify (snd kv)) props)
      +:+ "}"
  end.

(** ** JSON.parse

    A recursive-descent reader of the JSON grammar (ECMA-404).  [None] is the
    [SyntaxError] of [JSON.parse].  Every function consumes a character
    before it calls another with less fuel, so fuel beyond the length of the
    text is never used up. *)

Definition is_json_ws (c : ascii) : bool :=
  let n := N_of_ascii c in ((n =? 32) || (n =? 9) || (n =? 10) || (n =? 13))%N.

Fixpoint skip_ws (s : string) : string :=
  match s with
  | String c s' => if is_json_ws c then skip_ws s' else s
  | "" => ""
  end.

Definition starts_with (c : ascii) (s : string) : option string :=
  match s with
  | String c' r => if Ascii.eqb c c' then Some r else None
  | "" => None
  end.

Fixpoint strip_prefix (p s : string) : option string :=
  match p, s with
  | "", _ => Some s
  | String a p', String b s' => if Ascii.eqb a b then strip_prefix p' s' else None
  | String _ _, "" => None
  end.

Definition hex_value (c : ascii) : option N :=
  let n := N_of_ascii c in
  if ((48 <=? n) && (n <=? 57))%N then Some (n - 48)%N
  else if ((97 <=? n) && (n <=? 102))%N then Some (n - 87)%N
  else if ((65 <=? n) && (n <=? 70))%N then Some (n - 55)%N
  else None.

(** The text of a [\uXXXX] code unit: strings are kept as UTF-8 bytes. *)
Definition code_unit_text (u : N) : string :=
  if (u <? 128)%N then String (ascii_of_N u) ""
  else if (u <? 2048)%N then
    String (ascii_of_N (192 + u / 64)) (String (ascii_of_N (128 + u mod 64)) "")
  else
    String (ascii_of_N (224 + u / 4096))
      (String (ascii_of_N (128 + (u / 64) mod 64))
         (String (ascii_of_N (128 + u mod 64)) "")).

Definition unescape (e : ascii) : option ascii :=
  let n := N_of_ascii e in
  if ((n =? 34) || (n =? 92) || (n =? 47))%N then Some e
  else if (n =? 98)%N then Some (ascii_of_N 8)
  else if (n =? 102)%N then Some (ascii_of_N 12)
  else if (n =? 110)%N then Some (ascii_of_N 10)
  else if (n =? 114)%N then Some (ascii_of_N 13)
  else if (n =? 116)%N then Some (ascii_of_N 9)
  else None.

Definition prepend (p : string) (r : option (string * string))
  : option (string * string) :=
  match r with
  | Some (t, rest) => Some (p +:+ t, rest)
  | None => None
  end.

(** The characters of a string literal after its opening quote: the string
    denoted, and the text after the closing quote. *)
Fixpoint parse_string_chars (s : string) : option (string * string) :=
  match s with
  | "" => None
  | String c s1 =>
      if Ascii.eqb c dquote then Some ("", s1)
      else if Ascii.eqb c "\" then
        match s1 with
        | "" => None
        | String e s2 =>
            match unescape e with
            | Some c' => prepend (String c' "") (parse_string_chars s2)
            | None =>
                if Ascii.eqb e "u" then
                  match s2 with
                  | String h1 (String h2 (String h3 (String h4 s3))) =>
                      match hex_value h1, hex_value h2, hex_value h3, hex_value h4 with
                      | Some a, Some b, Some c, Some d =>
                          prepend (code_unit_text (((a * 16 + b) * 16 + c) * 16 + d)%N)
                                  (parse_string_chars s3)
                      | _, _, _, _ => None
                      end
                  | _ => None
                  end
                else None
            end
        end
      else if (N_of_ascii c <? 32)%N then None
      else prepend (String c "") (parse_string_chars s1)
  end.

Definition parse_exponent (s : string) : option (Z * string) :=
  match s with
  | String c t =>
      if Ascii.eqb c "e" || Ascii.eqb c "E" then
        let '(eneg, t1) :=
          match t with
          | String g t' =>
              if Ascii.eqb g "-" then (true, t')
              else if Ascii.eqb g "+" then (false, t') else (false, t)
          | "" => (false, t)
          end in
        let '(ed, r) := span_digits t1 in
        if String.eqb ed "" then None
        else Some (if eneg then - Z.of_N (N_of_dec ed) else Z.of_N (N_of_dec ed), r)
      else Some (0, s)
  | "" => Some (0, s)
  end.

Definition parse_fraction (s : string) : option (string * string) :=
  match starts_with "." s with
  | Some t =>
      let '(fp, r) := span_digits t in
      if String.eqb fp "" then None else Some (fp, r)
  | None => Some ("", s)
  end.

Definition parse_unsigned (neg : bool) (s1 : string) : option (number * string) :=
  let '(ip, s2) := span_digits s1 in
  if String.eqb ip "" then None
  else if (1 <? String.length ip)%nat
          && match first_char ip with Some c => Ascii.eqb c "0" | None => false end
  then None
  else
    '(fp, s3) ← parse_fraction s2;
    '(e, s4) ← parse_exponent s3;
    Some (to_double
            (number_of_digits neg (ip +:+ fp) (Z.of_nat (String.length ip) + e)),
          s4).

(** [-]? digits, with no superfluous leading zero; a fraction; an exponent.
    The Number is the double nearest to the decimal written: [1e999] reads
    as [Infinity]. *)
Definition parse_number (s : string) : option (number * string) :=
  match starts_with "-" s with
  | Some t => parse_unsigned true t
  | None => parse_unsigned false s
  end.

(** A member name and its colon. *)
Definition parse_key (s : string) : option (string * string) :=
  t ← starts_with dquote (skip_ws s);
  '(k, r) ← parse_string_chars t;
  r' ← starts_with ":" (skip_ws r);
  Some (k, r').

(** The object of a member list: a repeated name keeps its first place and
    takes the last value. *)
Definition build_object (members : list (string * JSValue)) : JSValue :=
  JSObject (fold_left (fun o kv => set_prop (fst kv) (snd kv) o) members []).

Fixpoint parse_value (fuel : nat) (s : string) {struct fuel}
  : option (JSValue * string) :=
  match fuel with
  | O => None
  | S f =>
      match skip_ws s with
      | "" => None
      | String c t =>
          if Ascii.eqb c "[" then
            match starts_with "]" (skip_ws t) with
            | Some r => Some (JSArray [], r)
            | None =>
                '(v, r) ← parse_value f t;
                '(vs, r') ← parse_elements f r;
                Some (JSArray (v :: vs), r')
            end
          else if Ascii.eqb c "{" then
            match starts_with "}" (skip_ws t) with
            | Some r => Some (JSObject [], r)
            | None =>
                '(k, r1) ← parse_key t;
                '(v, r2) ← parse_value f r1;
                '(kvs, r3) ← parse_members f r2;
                Some (build_object ((k, v) :: kvs), r3)
            end
          else if Ascii.eqb c dquote then
            '(str, r) ← parse_string_chars t; Some (JSString str, r)
          else if Ascii.eqb c "n" then r ← strip_prefix "ull" t; Some (JSNull, r)
          else if Ascii.eqb c "t" then r ← strip_prefix "rue" t; Some (JSBool true, r)
          else if Ascii.eqb c "f" then r ← strip_prefix "alse" t; Some (JSBool false, r)
          else '(x, r) ← parse_number (String c t); Some (JSNumber x, r)
      end
  end
with parse_elements (fuel : nat) (s : string) {struct fuel}
  : option (list JSValue * string) :=
  match fuel with
  | O => None
  | S f =>
      match skip_ws s with
      | "" => None
      | String c t =>
          if Ascii.eqb c "]" then Some ([], t)
          else if Ascii.eqb c "," then
            '(v, r) ← parse_value f t;
            '(vs, r') ← parse_elements f r;
            Some (v :: vs, r')
          else None
      end
  end
with parse_members (fuel : nat) (s : string) {struct fuel}
  : option (list (string * JSValue) * string) :=
  match fuel with
  | O => None
  | S f =>
      match skip_ws s with
      | "" => None
      | String c t =>
          if Ascii.eqb c "}" then Some ([], t)
          else if Ascii.eqb c "," then
            '(k, r1) ← parse_key t;
            '(v, r2) ← parse_value f r1;
            '(kvs, r3) ← parse_members f r2;
            Some ((k, v) :: kvs, r3)
          else None
      end
  end.

Definition JSON_parse (text : string) : Completion JSValue :=
  match parse_value (S (String.length text)) text with
  | Some (v, rest) =>
      match skip_ws rest with
      | "" => Normal v
      | String _ _ => Throw SyntaxError
      end
  | None => Throw SyntaxError
  end.

(** ** parseInt

    ECMA-262 19.2.5 with radix 10, as at its one call site: leading white
    space and a sign are skipped, the longest run of digits is read as a
    decimal integer and rounded to a double, and there being no digit gives
    [NaN]: [parseInt] never throws.

    White space is StrWhiteSpaceChar (WhiteSpace and LineTerminator), here
    in UTF-8: the characters of one byte U+0009 to U+000D and U+0020; of two
    bytes U+00A0; of three bytes U+1680, U+2000 to U+200A, U+2028, U+2029,
    U+202F, U+205F, U+3000 and U+FEFF. *)

Definition is_str_ws (c : ascii) : bool :=
  let n := N_of_ascii c in ((n =? 32) || ((9 <=? n) && (n <=? 13)))%N.

Definition is_str_ws2 (c d : ascii) : bool :=
  ((N_of_ascii c =? 194) && (N_of_ascii d =? 160))%N.

Definition is_str_ws3 (c d e : ascii) : bool :=
  let a := N_of_ascii c in
  let b := N_of_ascii d in
  let z := N_of_ascii e in
  (((a =? 225) && (b =? 154) && (z =? 128))
   || ((a =? 226) && (b =? 128)
       && (((128 <=? z) && (z <=? 138)) || (z =? 168) || (z =? 169) || (z =? 175)))
   || ((a =? 226) && (b =? 129) && (z =? 159))
   || ((a =? 227) && (b =? 128) && (z =? 128))
   || ((a =? 239) && (b =? 187) && (z =? 191)))%N.

Fixpoint trim_start (s : string) : string :=
  match s with
  | String c s1 =>
      if is_str_ws c then trim_start s1
      else
        match s1 with
        | String d s2 =>
            if is_str_ws2 c d then trim_start s2
            else
              match s2 with
              | String e s3 => if is_str_ws3 c d e then trim_start s3 else s
              | "" => s
              end
        | "" => s
        end
  | "" => ""
  end.

Definition parseInt (s : string) : number :=
  let s0 := trim_start s in
  let '(neg, s1) :=
    match s0 with
    | String c t =>
        if Ascii.eqb c "-" then (true, t)
        else if Ascii.eqb c "+" then (false, t) else (false, s0)
    | "" => (false, s0)
    end in
  let '(ds, _) := span_digits s1 in
  if String.eqb ds "" then NaN
  else to_double (number_of_digits neg ds (Z.of_nat (String.length ds))).

(** ** The world outside the module

    [storage] is the AsyncStorage of the device, [downloads] the lessons the
    DownloadManager holds, [lessonIndices] the catalog of CourseData,
    [entropy] the bytes the random source will deliver, and [calls] the
    journal of every call that leaves the module, oldest first. *)

Abbreviation Course := string (only parsing).

Inductive Call : Type :=
| GetItem (key : string)
| SetItem (key value : string)
| RemoveItem (key : string)
| IsDownloaded (course : Course) (lesson : number)
| DeleteDownload (course : Course) (lesson : number)
| GetRandomValues
| Log (action surface : string) (setting_value : JSValue).

Record World : Type := mkWorld {
  storage : gmap string string;
  downloads : list (Course * number);
  lessonIndices : Course -> list number;
  entropy : nat -> N;
  calls : list Call
}.

Definition with_storage (f : gmap string string -> gmap string string) (w : World)
  : World :=
  mkWorld (f (storage w)) (downloads w) (lessonIndices w) (entropy w) (calls w).

Definition record (c : Call) (w : World) : World :=
  mkWorld (storage w) (downloads w) (lessonIndices w) (entropy w) (calls w ++ [c]).

(** An asynchronous function of the source: started in a world, it settles
    with a value or a rejection and leaves a world behind. *)
Definition Promise (A : Type) : Type := World -> Completion A * World.

Definition resolve {A : Type} (a : A) : Promise A := fun w => (Normal a, w).

Definition settle {A : Type} (c : Completion A) : Promise A := fun w => (c, w).

Definition await {A B : Type} (p : Promise A) (k : A -> Promise B) : Promise B :=
  fun w =>
    match p w with
    | (Normal a, w') => k a w'
    | (Throw e, w') => (Throw e, w')
    end.

Notation "x <- p ;; k" := (await p (fun x => k))
  (at level 100, p at next level, right associativity).
Notation "p ;;; k" := (await p (fun _ => k))
  (at level 100, right associativity).

(** [Promise.all] over calls already issued: every one runs, in the order
    the array lists them, and the first rejection is the result. *)
Fixpoint Promise_all (ps : list (Promise unit)) : Promise unit :=
  match ps with
  | [] => resolve tt
  | p :: ps' =>
      fun w =>
        let '(r, w1) := p w in
        let '(r', w2) := Promise_all ps' w1 in
        (match r with Throw e => Throw e | Normal _ => r' end, w2)
  end.

Module AsyncStorage.

Definition getItem (key : string) : Promise (option string) :=
  fun w => (Normal (storage w !! key), record (GetItem key) w).

Definition setItem (key value : string) : Promise unit :=
  fun w => (Normal tt, record (SetItem key value) (with_storage (insert key value) w)).

Definition removeItem (key : string) : Promise unit :=
  fun w => (Normal tt, record (RemoveItem key) (with_storage (delete key) w)).

End AsyncStorage.

Definition same_lesson (course : Course) (lesson : number) (d : Course * number)
  : bool :=
  String.eqb course (fst d) && number_eqb lesson (snd d).

Module DownloadManager.

(** Modelled from the spec: [isDownloaded(course, lesson) -> bool] of the
    download manager of [./download-manager], over the lessons downloaded. *)
Definition genIsDownloaded (course : Course) (lesson : number) : Promise bool :=
  fun w => (Normal (existsb (same_lesson course lesson) (downloads w)),
            record (IsDownloaded course lesson) w).

(** Modelled from the spec: [deleteDownload(course, lesson) -> void] of the
    same download manager; the lesson is no longer downloaded afterwards. *)
Definition genDeleteDownload (course : Course) (lesson : number) : Promise unit :=
  fun w =>
    (Normal tt,
     record (DeleteDownload course lesson)
       (mkWorld (storage w)
          (filter (fun d => negb (same_lesson course lesson d)) (downloads w))
          (lessonIndices w) (entropy w) (calls w))).

End DownloadManager.

Module CourseData.

(** Modelled from the spec: [getLessonIndices(course)], the sequence of
    lesson indices the catalog of [./course-data] reports for a course. *)
Definition getLessonIndices (course : Course) : Promise (list number) :=
  fun w => (Normal (lessonIndices w course), w).

End CourseData.

(** Modelled from the spec: [log(event)] of [./metrics], a fire-and-forget
    telemetry sink; only the call is recorded. *)
Definition log (action surface : string) (setting_value : JSValue) : Promise unit :=
  fun w => (Normal tt, record (Log action surface setting_value) w).

(** ** uuid

    [v4] of the [uuid] package (RFC 4122, section 4.4): sixteen random bytes,
    the version and variant bits forced, printed as lowercase hexadecimal in
    groups of 4, 2, 2, 2 and 6 bytes. *)

Definition hex_byte (b : N) : string :=
  String (hex_digit (b / 16)) (String (hex_digit (b mod 16)) "").

Definition hex_bytes (bs : list N) : string :=
  fold_right (fun b acc => hex_byte b +:+ acc) "" bs.

Definition v4_bytes (rnds : nat -> N) : list N :=
  map (fun i =>
         let b := (rnds i mod 256)%N in
         if Nat.eqb i 6 then N.lor (N.land b 15) 64
         else if Nat.eqb i 8 then N.lor (N.land b 63) 128
         else b)
      (seq 0 16).

Definition unsafeStringify (bs : list N) : string :=
  hex_bytes (firstn 4 bs) +:+ "-" +:+
  hex_bytes (firstn 2 (skipn 4 bs)) +:+ "-" +:+
  hex_bytes (firstn 2 (skipn 6 bs)) +:+ "-" +:+
  hex_bytes (firstn 2 (skipn 8 bs)) +:+ "-" +:+
  hex_bytes (skipn 10 bs).

Definition uuid : Promise string :=
  fun w =>
    (Normal (unsafeStringify (v4_bytes (entropy w))),
     record GetRandomValues
       (mkWorld (storage w) (downloads w) (lessonIndices w)
          (fun i => entropy w (16 + i)%nat) (calls w))).

(** ** persistence.ts *)

Inductive Preference : Type :=
| AUTO_DELETE_FINISHED
| STREAM_QUALITY
| DOWNLOAD_QUALITY
| DOWNLOAD_ONLY_ON_WIFI
| ALLOW_DATA_COLLECTION
| IS_FIRST_LOAD
| RATING_BUTTON_DISMISSED
| KILLSWITCH_COURSE_VERSION_V1.

(** The string value of each member of the enum. *)
Definition Preference_value (name : Preference) : string :=
  match name with
  | AUTO_DELETE_FINISHED => "auto-delete-finished"
  | STREAM_QUALITY => "stream-quality"
  | DOWNLOAD_QUALITY => "download-quality"
  | DOWNLOAD_ONLY_ON_WIFI => "download-only-on-wifi"
  | ALLOW_DATA_COLLECTION => "allow-data-collection"
  | IS_FIRST_LOAD => "is-first-load"
  | RATING_BUTTON_DISMISSED => "rating-button-dismissed"
  | KILLSWITCH_COURSE_VERSION_V1 => "killswitch-course-version-v1"
  end.

(** ECMA-262 ToBoolean, for the conditions of [if] and [&&]. *)
Definition ToBoolean (v : JSValue) : bool :=
  match v with
  | JSNull => false
  | JSBool b => b
  | JSNumber x => match x with NaN | Zero => false | _ => true end
  | JSString s => negb (String.eqb s "")
  | JSArray _ | JSObject _ => true
  end.

(** Lines 30-42. *)
Definition genAutopause : Promise JSValue :=
  autopause <- AsyncStorage.getItem "@global-setting/autopause" ;;
  match autopause with
  | None => resolve (JSObject [("type", JSString "off")])
  | Some autopause => settle (JSON_parse autopause)
  end.

(** Lines 44-55. *)
Definition genMostRecentListenedLessonForCourse (course : Course)
  : Promise (option number) :=
  mostRecentLesson <-
    AsyncStorage.getItem ("@activity/" +:+ course +:+ "/most-recent-lesson") ;;
  match mostRecentLesson with
  | None => resolve None
  | Some mostRecentLesson => resolve (Some (parseInt mostRecentLesson))
  end.

(** Lines 57-59. *)
Definition genMostRecentListenedCourse : Promise (option Course) :=
  AsyncStorage.getItem "@activity/most-recent-course".

(** Lines 61-81.  [lesson] is [number | null]; the result is [null]
    ([JSNull]), the default record, or whatever the stored text decodes to. *)
Definition genProgressForLesson (course : Course) (lesson : option number)
  : Promise JSValue :=
  match lesson with
  | None => resolve JSNull
  | Some lesson =>
      progress <-
        AsyncStorage.getItem
          ("@activity/" +:+ course +:+ "/" +:+ Number_toString lesson) ;;
      match progress with
      | None => resolve (JSObject [("finished", JSBool false); ("progress", JSNull)])
      | Some progress => settle (JSON_parse progress)
      end
  end.

(** Lines 83-104.  [{...progressObject, progress}] is the spread of the record
    read, with [progress] assigned. *)
Definition genUpdateProgressForLesson (course : Course) (lesson progress : number)
  : Promise unit :=
  progressObject <- genProgressForLesson course (Some lesson) ;;
  Promise_all
    [ AsyncStorage.setItem
        ("@activity/" +:+ course +:+ "/" +:+ Number_toString lesson)
        (JSON_stringify
           (JSObject (set_prop "progress" (JSNumber progress)
                        (own_props progressObject))));
      AsyncStorage.setItem
        ("@activity/" +:+ course +:+ "/most-recent-lesson")
        (Number_toString lesson);
      AsyncStorage.setItem "@activity/most-recent-course" course ].

(** Lines 167-192: the factory of a preference's getter and setter. *)
Definition PreferenceMethods : Type := Promise JSValue * (JSValue -> Promise unit).

Definition preference (name : Preference) (defaultValue : JSValue)
    (fromString : string -> Completion JSValue) : PreferenceMethods :=
  ( (val <- AsyncStorage.getItem ("@preferences/" +:+ Preference_value name) ;;
     match val with
     | None => resolve defaultValue
     | Some val => settle (fromString val)
     end),
    (fun val =>
       text <- settle (ToString val) ;;
       AsyncStorage.setItem ("@preferences/" +:+ Preference_value name) text ;;;
       log "set_preference" (Preference_value name) val) ).

(** Lines 194-232: the eight preferences, declared with the decoders
    [(b) => b === 'true'], [(b) => b] and [(o) => JSON.parse(o)]. *)
Definition is_true (b : string) : Completion JSValue :=
  Normal (JSBool (String.eqb b "true")).
Definition itself (b : string) : Completion JSValue := Normal (JSString b).
Definition parse_json (o : string) : Completion JSValue := JSON_parse o.

Definition genPreferenceAutoDeleteFinished : Promise JSValue :=
  fst (preference AUTO_DELETE_FINISHED (JSBool false) is_true).
Definition genSetPreferenceAutoDeleteFinished : JSValue -> Promise unit :=
  snd (preference AUTO_DELETE_FINISHED (JSBool false) is_true).

Definition genPreferenceStreamQuality : Promise JSValue :=
  fst (preference STREAM_QUALITY (JSString "low") itself).
Definition genSetPreferenceStreamQuality : JSValue -> Promise unit :=
  snd (preference STREAM_QUALITY (JSString "low") itself).

Definition genPreferenceDownloadQuality : Promise JSValue :=
  fst (preference DOWNLOAD_QUALITY (JSString "high") itself).
Definition genSetPreferenceDownloadQuality : JSValue -> Promise unit :=
  snd (preference DOWNLOAD_QUALITY (JSString "high") itself).

Definition genPreferenceDownloadOnlyOnWifi : Promise JSValue :=
  fst (preference DOWNLOAD_ONLY_ON_WIFI (JSBool true) is_true).
Definition genSetPreferenceDownloadOnlyOnWifi : JSValue -> Promise unit :=
  snd (preference DOWNLOAD_ONLY_ON_WIFI (JSBool true) is_true).

Definition genPreferenceAllowDataCollection : Promise JSValue :=
  fst (preference ALLOW_DATA_COLLECTION (JSBool true) is_true).
Definition genSetPreferenceAllowDataCollection : JSValue -> Promise unit :=
  snd (preference ALLOW_DATA_COLLECTION (JSBool true) is_true).

Definition genPreferenceIsFirstLoad : Promise JSValue :=
  fst (preference IS_FIRST_LOAD (JSBool true) is_true).
Definition genSetPreferenceIsFirstLoad : JSValue -> Promise unit :=
  snd (preference IS_FIRST_LOAD (JSBool true) is_true).

Definition genPreferenceRatingButtonDismissed : Promise JSValue :=
  fst (preference RATING_BUTTON_DISMISSED
         (JSObject [("dismissed", JSBool false)]) parse_json).
Definition genSetPreferenceRatingButtonDismissed : JSValue -> Promise unit :=
  snd (preference RATING_BUTTON_DISMISSED
         (JSObject [("dismissed", JSBool false)]) parse_json).

Definition genPreferenceKillswitchCourseVersionV1 : Promise JSValue :=
  fst (preference KILLSWITCH_COURSE_VERSION_V1 (JSBool false) is_true).
Definition genSetPreferenceKillswitchCourseVersionV1 : JSValue -> Promise unit :=
  snd (preference KILLSWITCH_COURSE_VERSION_V1 (JSBool false) is_true).

(** Lines 106-133.  [&&] evaluates [genIsDownloaded] only when the
    preference is truthy. *)
Definition genMarkLessonFinished (course : Course) (lesson : number)
  : Promise unit :=
  progressObject <- genProgressForLesson course (Some lesson) ;;
  Promise_all
    [ AsyncStorage.setItem
        ("@activity/" +:+ course +:+ "/" +:+ Number_toString lesson)
        (JSON_stringify
           (JSObject (set_prop "finished" (JSBool true)
                        (own_props progressObject))));
      AsyncStorage.setItem
        ("@activity/" +:+ course +:+ "/most-recent-lesson")
        (Number_toString lesson);
      AsyncStorage.setItem "@activity/most-recent-course" course ] ;;;
  autoDelete <- genPreferenceAutoDeleteFinished ;;
  if ToBoolean autoDelete then
    downloaded <- DownloadManager.genIsDownloaded course lesson ;;
    if downloaded then DownloadManager.genDeleteDownload course lesson
    else resolve tt
  else resolve tt.

(** Lines 135-150. *)
Definition genDeleteProgressForCourse (course : Course) : Promise unit :=
  mostRecentCourse <- AsyncStorage.getItem "@activity/most-recent-course" ;;
  let shouldRemoveGlobalRecentCourse :=
    match mostRecentCourse with
    | Some c => String.eqb c course
    | None => false
    end in
  lessons <- CourseData.getLessonIndices course ;;
  Promise_all
    ([ AsyncStorage.removeItem ("@activity/" +:+ course +:+ "/most-recent-lesson") ]
     ++ (if shouldRemoveGlobalRecentCourse
         then [ AsyncStorage.removeItem "@activity/most-recent-course" ]
         else [])
     ++ map (fun lesson =>
               AsyncStorage.removeItem
                 ("@activity/" +:+ course +:+ "/" +:+ Number_toString lesson))
            lessons).

(** Lines 152-161.  [if (storedToken)]: [null] and the empty string are
    both falsy. *)
Definition genMetricsToken : Promise string :=
  storedToken <- AsyncStorage.getItem "@metrics/user-token" ;;
  match storedToken with
  | Some (String c t) => resolve (String c t)
  | Some "" | None =>
      createdToken <- uuid ;;
      AsyncStorage.setItem "@metrics/user-token" createdToken ;;;
      resolve createdToken
  end.

(** Lines 163-165. *)
Definition genDeleteMetricsToken : Promise unit :=
  AsyncStorage.removeItem "@metrics/user-token".

(** The getter and setter exported for each member of the enum. *)
Definition exported (name : Preference) : PreferenceMethods :=
  match name with
  | AUTO_DELETE_FINISHED =>
      (genPreferenceAutoDeleteFinished, genSetPreferenceAutoDeleteFinished)
  | STREAM_QUALITY => (genPreferenceStreamQuality, genSetPreferenceStreamQuality)
  | DOWNLOAD_QUALITY => (genPreferenceDownloadQuality, genSetPreferenceDownloadQuality)
  | DOWNLOAD_ONLY_ON_WIFI =>
      (genPreferenceDownloadOnlyOnWifi, genSetPreferenceDownloadOnlyOnWifi)
  | ALLOW_DATA_COLLECTION =>
      (genPreferenceAllowDataCollection, genSetPreferenceAllowDataCollection)
  | IS_FIRST_LOAD => (genPreferenceIsFirstLoad, genSetPreferenceIsFirstLoad)
  | RATING_BUTTON_DISMISSED =>
      (genPreferenceRatingButtonDismissed, genSetPreferenceRatingButtonDismissed)
  | KILLSWITCH_COURSE_VERSION_V1 =>
      (genPreferenceKillswitchCourseVersionV1,
       genSetPreferenceKillswitchCourseVersionV1)
  end.

(** ** Notions the properties are stated with *)

(** The default each exported preference is declared with. *)
Definition declared_default (name : Preference) : JSValue :=
  match name with
  | AUTO_DELETE_FINISHED | KILLSWITCH_COURSE_VERSION_V1 => JSBool false
  | DOWNLOAD_ONLY_ON_WIFI | ALLOW_DATA_COLLECTION | IS_FIRST_LOAD => JSBool true
  | STREAM_QUALITY => JSString "low"
  | DOWNLOAD_QUALITY => JSString "high"
  | RATING_BUTTON_DISMISSED => JSObject [("dismissed", JSBool false)]
  end.

(** The decode rule each exported preference is declared with. *)
Inductive DecodeRule : Type := BooleanParse | Passthrough | JsonParse.

Definition declared_decode (name : Preference) : DecodeRule :=
  match name with
  | STREAM_QUALITY | DOWNLOAD_QUALITY => Passthrough
  | RATING_BUTTON_DISMISSED => JsonParse
  | _ => BooleanParse
  end.

(** A text in which [parseInt] finds no digit to read: after white space
    and a sign, it is over or goes on with something else. *)
Definition not_numeric (s : string) : bool :=
  match trim_start s with
  | "" => true
  | String c t =>
      if Ascii.eqb c "-" || Ascii.eqb c "+" then
        match t with
        | "" => true
        | String d _ => negb (is_digit d)
        end
      else negb (is_digit c)
  end.

Fixpoint distinct (ks : list string) : bool :=
  match ks with
  | [] => true
  | k :: ks' => negb (existsb (String.eqb k) ks') && distinct ks'
  end.

(** The values JSON represents exactly: finite Numbers and objects whose
    property names are pairwise different, at every depth. *)
Fixpoint json_ok (v : JSValue) : bool :=
  match v with
  | JSNull | JSBool _ | JSString _ => true
  | JSNumber x => number_wf x && Number_isFinite x
  | JSArray items => forallb json_ok items
  | JSObject props =>
      distinct (map fst props) && forallb (fun kv => json_ok (snd kv)) props
  end.

(** The values of JavaScript among those of [JSValue]: every number is a
    Number and no object has a property name twice. *)
Fixpoint well_formed (v : JSValue) : bool :=
  match v with
  | JSNull | JSBool _ | JSString _ => true
  | JSNumber x => number_wf x
  | JSArray items => forallb well_formed items
  | JSObject props =>
      distinct (map fst props) && forallb (fun kv => well_formed (snd kv)) props
  end.

(** No number in the value is [NaN] or infinite. *)
Fixpoint all_finite (v : JSValue) : bool :=
  match v with
  | JSNull | JSBool _ | JSString _ => true
  | JSNumber x => Number_isFinite x
  | JSArray items => forallb all_finite items
  | JSObject props => forallb (fun kv => all_finite (snd kv)) props
  end.

(** The bits of the random byte at index [i] that [v4] keeps: all eight,
    but for the four of byte 6 that give way to the version and the two of
    byte 8 that give way to the variant; 122 bits in all. *)
Definition kept_bits (i : nat) (b : N) : N :=
  if Nat.eqb i 6 then (b mod 16)%N
  else if Nat.eqb i 8 then (b mod 64)%N
  else (b mod 256)%N.

(** Two deliveries of sixteen random bytes that differ in a bit [v4]
    keeps. *)
Definition differ (rnds rnds' : nat -> N) : Prop :=
  exists i, (i < 16)%nat /\ kept_bits i (rnds i) <> kept_bits i (rnds' i).

(** The three shapes of key under [@activity/]. *)
Abbreviation progress_key course lesson :=
  ("@activity/" +:+ course +:+ "/" +:+ Number_toString lesson).
Abbreviation recent_lesson_key course :=
  ("@activity/" +:+ course +:+ "/most-recent-lesson").
Abbreviation recent_course_key := "@activity/most-recent-course".

Fixpoint contains (c : ascii) (s : string) : bool :=
  match s with
  | "" => false
  | String x s' => Ascii.eqb c x || contains c s'
  end.

(** The store after the keys of a list are removed from it. *)
Definition remove_all (keys : list string) (m : gmap string string)
  : gmap string string :=
  fold_left (fun m k => delete k m) keys m.

(** The world a progress mutation leaves once it has read the record and
    issued its three writes, [text] being the record it wrote. *)
Definition written (course : Course) (lesson : number) (text : string) (w : World)
  : World :=
  mkWorld
    (<[recent_course_key := course]>
       (<[recent_lesson_key course := Number_toString lesson]>
          (<[progress_key course lesson := text]> (storage w))))
    (downloads w) (lessonIndices w) (entropy w)
    (calls w ++
     [GetItem (progress_key course lesson);
      SetItem (progress_key course lesson) text;
      SetItem (recent_lesson_key course) (Number_toString lesson);
      SetItem recent_course_key course]).

(** The last statement of [genMarkLessonFinished]. *)
Definition delete_if_wanted (course : Course) (lesson : number) : Promise unit :=
  autoDelete <- genPreferenceAutoDeleteFinished ;;
  if ToBoolean autoDelete then
    downloaded <- DownloadManager.genIsDownloaded course lesson ;;
    if downloaded then DownloadManager.genDeleteDownload course lesson
    else resolve tt
  else resolve tt.

(** The downloads the journal shows deleted, oldest first. *)
Fixpoint deletions (cs : list Call) : list (Course * number) :=
  match cs with
  | [] => []
  | DeleteDownload course lesson :: cs' => (course, lesson) :: deletions cs'
  | _ :: cs' => deletions cs'
  end.

(** ** Worlds to run the module in *)

(** A text written with ['] where it has a double quote. *)
Fixpoint quoted (s : string) : string :=
  match s with
  | "" => ""
  | String c s' => String (if Ascii.eqb c "'" then dquote else c) (quoted s')
  end.

(** A device with the given store contents and downloads, a catalog of
    three lessons per course, and a random source that counts. *)
Definition device (entries : list (string * string))
    (downloaded : list (Course * number)) : World :=
  mkWorld (list_to_map entries) downloaded
    (fun _ => [int 1; int 2; int 3]) (fun i => N.of_nat i) [].

(** A device whose random source delivers the same byte for ever. *)
Definition stuck_random_source : World :=
  mkWorld ∅ [] (fun _ => []) (fun _ => 7%N) [].

(** ** Notions of the proofs *)

(** The value of a string of digits, [acc] being that of the digits before
    it. *)
Fixpoint digits_value (acc : N) (s : string) : N :=
  match s with
  | "" => acc
  | String c t => digits_value (10 * acc + (N_of_ascii c - 48)) t
  end.

(** The mantissa and the exponent of a double. *)
Definition binary64_wf (m s : Z) : Prop :=
  0 < m < 2 ^ 53 /\ 0 <= s <= 2045 /\ (s = 0 \/ 2 ^ 52 <= m).

(** A text at whose start a JSON value is over: the end, or one of [,]
    [\]] and [}]. *)
Definition delimited (s : string) : bool :=
  match s with
  | "" => true
  | String c _ => Ascii.eqb c "," || Ascii.eqb c "]" || Ascii.eqb c "}"
  end.

(** What follows a run of digits does not continue it. *)
Definition ends_digits (s : string) : bool :=
  match s with
  | "" => true
  | String c _ => negb (is_digit c)
  end.

(** The characters a serialised value can begin with. *)
Definition value_start (c : ascii) : bool :=
  is_digit c || Ascii.eqb c "-" || Ascii.eqb c "n" || Ascii.eqb c "t"
  || Ascii.eqb c "f" || Ascii.eqb c dquote || Ascii.eqb c "[" || Ascii.eqb c "{".

(** Fuel that reads a value back from its own serialisation. *)
Fixpoint depth (v : JSValue) : nat :=
  match v with
  | JSArray items => S (fold_right (fun i n => S (Nat.max (depth i) n)) 1%nat items)
  | JSObject props =>
      S (fold_right (fun kv n => S (Nat.max (depth (snd kv)) n)) 1%nat props)
  | _ => 1%nat
  end.

(** The text of one member of an object. *)
Definition member_text (kv : string * JSValue) : string :=
  QuoteJSONString (fst kv) +:+ ":" +:+ JSON_stringify (snd kv).

Definition starts_value (s : string) : bool :=
  match s with
  | "" => false
  | String c _ => value_start c
  end.

(** [parse_value] reads [v] back from its serialisation, given fuel for its
    depth and a delimiter after it. *)
Definition reads_back (v : JSValue) : Prop :=
  json_ok v = true ->
  forall fuel rest, (depth v <= fuel)%nat -> delimited rest = true ->
  parse_value fuel (JSON_stringify v +:+ rest) = Some (v, rest).

(** Separator and element for each further element, then the bracket. *)
Fixpoint more_elements (items : list JSValue) : string :=
  match items with
  | [] => "]"
  | i :: items' => "," +:+ JSON_stringify i +:+ more_elements items'
  end.

Fixpoint more_members (props : list (string * JSValue)) : string :=
  match props with
  | [] => "}"
  | kv :: props' =>
      "," +:+ QuoteJSONString (fst kv) +:+ ":" +:+ JSON_stringify (snd kv)
      +:+ more_members props'
  end.

(** * Properties *)

(** ** Text *)

Lemma append_assoc (a b c : string) : (a +:+ b) +:+ c = a +:+ b +:+ c.
Proof. induction a as [|x a IH]; simpl; [reflexivity | now rewrite IH]. Qed.

Lemma append_empty (a : string) : a +:+ "" = a.
Proof. induction a as [|x a IH]; simpl; [reflexivity | now rewrite IH]. Qed.

Lemma length_append (a b : string) :
  String.length (a +:+ b) = (String.length a + String.length b)%nat.
Proof. induction a as [|x a IH]; simpl; [reflexivity | now rewrite IH]. Qed.

Lemma length_zeros k : String.length (zeros k) = k.
Proof. induction k as [|k IH]; simpl; [reflexivity | now rewrite IH]. Qed.

Lemma take_drop k s : str_take k s +:+ str_drop k s = s.
Proof.
  revert s; induction k as [|k IH]; intros [|c s]; simpl; try reflexivity.
  now rewrite IH.
Qed.

Lemma length_take k s :
  (k <= String.length s)%nat -> String.length (str_take k s) = k.
Proof.
  revert s; induction k as [|k IH]; intros [|c s]; simpl; intros H;
    try reflexivity; try lia.
  rewrite IH; [reflexivity | lia].
Qed.

Lemma eqb_empty_false c s : String.eqb (String c s) "" = false.
Proof. reflexivity. Qed.

Lemma all_digits_append a b :
  all_digits (a +:+ b) = all_digits a && all_digits b.
Proof.
  induction a as [|x a IH]; simpl; [reflexivity |].
  now rewrite IH, andb_assoc.
Qed.

Lemma all_digits_zeros k : all_digits (zeros k) = true.
Proof. induction k as [|k IH]; simpl; [reflexivity | exact IH]. Qed.

Lemma all_digits_take k s : all_digits s = true -> all_digits (str_take k s) = true.
Proof.
  revert s; induction k as [|k IH]; intros [|c s]; simpl; try reflexivity.
  intros [Hc Hs]%andb_true_iff. rewrite Hc; simpl. now apply IH.
Qed.

Lemma all_digits_drop k s : all_digits s = true -> all_digits (str_drop k s) = true.
Proof.
  revert s; induction k as [|k IH]; intros [|c s]; simpl; try reflexivity; try easy.
  intros [Hc Hs]%andb_true_iff. now apply IH.
Qed.

Lemma span_digits_append ds rest :
  all_digits ds = true -> ends_digits rest = true ->
  span_digits (ds +:+ rest) = (ds, rest).
Proof.
  intros Hds Hrest. induction ds as [|c ds IH]; simpl in *.
  - destruct rest as [|c rest]; simpl in *; [reflexivity |].
    now apply negb_true_iff in Hrest as ->.
  - apply andb_true_iff in Hds as [Hc Hds]. rewrite Hc, (IH Hds). reflexivity.
Qed.

Lemma strip_leading_nonzero s c :
  first_char s = Some c -> Ascii.eqb c "0" = false -> strip_leading_zeros s = (O, s).
Proof. destruct s as [|x s]; simpl; [easy |]. now intros [= ->] ->. Qed.

Lemma strip_leading_zeros_append k s :
  strip_leading_zeros (zeros k +:+ s) =
  (k + fst (strip_leading_zeros s), snd (strip_leading_zeros s))%nat.
Proof.
  induction k as [|k IH]; simpl.
  - now destruct (strip_leading_zeros s).
  - now rewrite IH.
Qed.

Lemma strip_trailing_nonzero s c :
  last_char s = Some c -> Ascii.eqb c "0" = false -> strip_trailing_zeros s = s.
Proof.
  induction s as [|x s IH]; simpl; [easy |].
  destruct s as [|y s].
  - intros [= ->] ->. reflexivity.
  - intros Hl Hc. rewrite (IH Hl Hc). simpl. now rewrite andb_false_r.
Qed.

Lemma strip_trailing_all_zeros k : strip_trailing_zeros (zeros k) = "".
Proof. induction k as [|k IH]; simpl; [reflexivity | now rewrite IH]. Qed.

Lemma strip_trailing_zeros_append s k c :
  last_char s = Some c -> Ascii.eqb c "0" = false ->
  strip_trailing_zeros (s +:+ zeros k) = s.
Proof.
  induction s as [|x s IH]; simpl; [easy |].
  destruct s as [|y s].
  - intros [= ->] Hc. simpl. now rewrite strip_trailing_all_zeros, Hc.
  - intros Hl Hc. rewrite (IH Hl Hc). simpl. now rewrite andb_false_r.
Qed.

Lemma first_char_append a b c : first_char a = Some c -> first_char (a +:+ b) = Some c.
Proof. destruct a; simpl; [easy | trivial]. Qed.

Lemma first_char_take k s c :
  (0 < k)%nat -> first_char s = Some c -> first_char (str_take k s) = Some c.
Proof. destruct k; [lia |]. destruct s; simpl; [easy | trivial]. Qed.

(** ** Numbers: what [Number::toString] prints, [JSON.parse] reads back *)

Lemma all_digits_uint d : all_digits (NilEmpty.string_of_uint d) = true.
Proof. induction d; simpl; trivial. Qed.

Lemma dec_of_N_digits m : all_digits (dec_of_N m) = true.
Proof.
  unfold dec_of_N, NilZero.string_of_uint.
  destruct (N.to_uint m); try reflexivity; apply all_digits_uint.
Qed.

Lemma dec_of_N_nonempty m : exists c t, dec_of_N m = String c t.
Proof.
  unfold dec_of_N, NilZero.string_of_uint.
  destruct (N.to_uint m); simpl; eauto.
Qed.

Lemma N_of_dec_of_N m : N_of_dec (dec_of_N m) = m.
Proof.
  unfold N_of_dec, dec_of_N. rewrite NilZero.usu.
  - apply DecimalN.Unsigned.of_to.
  - destruct m; simpl; [discriminate | apply DecimalPos.Unsigned.to_uint_nonnil].
Qed.

Lemma delimited_cases s :
  delimited s = true ->
  s = "" \/ exists c t, s = String c t /\ (c = "," \/ c = "]" \/ c = "}")%char.
Proof.
  destruct s as [|c t]; simpl; [now left |].
  intros H. right. exists c, t. split; [reflexivity |].
  apply orb_true_iff in H as [H | H]; [apply orb_true_iff in H as [H | H] |];
    apply Ascii.eqb_eq in H; auto.
Qed.

Ltac delimited_tail H :=
  apply delimited_cases in H as [-> | (? & ? & -> & [-> | [-> | ->]])].

Lemma delimited_ends_digits s : delimited s = true -> ends_digits s = true.
Proof. intros H. delimited_tail H; reflexivity. Qed.

Lemma parse_fraction_delimited s :
  delimited s = true -> parse_fraction s = Some ("", s).
Proof. intros H. delimited_tail H; reflexivity. Qed.

Lemma parse_exponent_delimited s :
  delimited s = true -> parse_exponent s = Some (0, s).
Proof. intros H. delimited_tail H; reflexivity. Qed.

Lemma parse_fraction_digits fp t :
  all_digits fp = true -> fp <> "" -> ends_digits t = true ->
  parse_fraction ("." +:+ fp +:+ t) = Some (fp, t).
Proof.
  intros Hd Hne Ht. unfold parse_fraction. simpl.
  rewrite (span_digits_append _ _ Hd Ht).
  destruct fp; [congruence | reflexivity].
Qed.

Lemma parse_exponent_text e t :
  delimited t = true -> parse_exponent (exponent_text e +:+ t) = Some (e, t).
Proof.
  intros Ht. unfold parse_exponent, exponent_text. simpl.
  assert (Hs : span_digits (dec_of_N (Z.abs_N e) +:+ t) = (dec_of_N (Z.abs_N e), t))
    by (apply span_digits_append;
        [apply dec_of_N_digits | now apply delimited_ends_digits]).
  destruct (dec_of_N_nonempty (Z.abs_N e)) as (c & d & Hcd).
  destruct (e <? 0) eqn:He; simpl; rewrite Hs, Hcd; simpl; rewrite <- Hcd;
    rewrite N_of_dec_of_N, N2Z.inj_abs_N; do 2 f_equal.
  - apply Z.ltb_lt in He. lia.
  - apply Z.ltb_ge in He. lia.
Qed.

Lemma parse_unsigned_text neg ip t fp t' e rest c :
  all_digits ip = true -> first_char ip = Some c ->
  (1 <? String.length ip)%nat && Ascii.eqb c "0" = false ->
  ends_digits t = true ->
  parse_fraction t = Some (fp, t') ->
  parse_exponent t' = Some (e, rest) ->
  parse_unsigned neg (ip +:+ t)
  = Some (to_double
            (number_of_digits neg (ip +:+ fp) (Z.of_nat (String.length ip) + e)),
          rest).
Proof.
  intros Hd Hc Hz Ht Hf He. unfold parse_unsigned.
  rewrite (span_digits_append _ _ Hd Ht).
  destruct ip as [|x ip]; [discriminate |].
  injection Hc as ->. rewrite eqb_empty_false.
  cbn [first_char]. rewrite Hz, Hf. cbn. rewrite He. reflexivity.
Qed.

Lemma number_of_digits_normal neg s j c c' :
  first_char s = Some c -> Ascii.eqb c "0" = false ->
  last_char s = Some c' -> Ascii.eqb c' "0" = false ->
  forall n, number_of_digits neg (s +:+ zeros j) n = Finite neg s n.
Proof.
  intros Hc Hc0 Hl Hl0 n. unfold number_of_digits.
  rewrite (strip_leading_nonzero _ c) by (auto using first_char_append).
  rewrite (strip_trailing_zeros_append _ _ _ Hl Hl0).
  destruct s; [discriminate |]. simpl. f_equal. lia.
Qed.

Lemma number_of_digits_exact neg s c c' :
  first_char s = Some c -> Ascii.eqb c "0" = false ->
  last_char s = Some c' -> Ascii.eqb c' "0" = false ->
  forall n, number_of_digits neg s n = Finite neg s n.
Proof.
  intros Hc Hc0 Hl Hl0 n.
  rewrite <- (number_of_digits_normal neg s 0 c c') by trivial.
  simpl. now rewrite append_empty.
Qed.

Lemma number_of_digits_small neg s j c c' :
  first_char s = Some c -> Ascii.eqb c "0" = false ->
  last_char s = Some c' -> Ascii.eqb c' "0" = false ->
  forall n, number_of_digits neg ("0" +:+ zeros j +:+ s) n
            = Finite neg s (n - Z.of_nat (S j)).
Proof.
  intros Hc Hc0 Hl Hl0 n. unfold number_of_digits.
  change ("0" +:+ zeros j +:+ s) with (zeros (S j) +:+ s).
  rewrite strip_leading_zeros_append, (strip_leading_nonzero _ c Hc Hc0).
  cbn [fst snd]. rewrite (strip_trailing_nonzero _ _ Hl Hl0).
  destruct s; [discriminate |]. f_equal. lia.
Qed.

Lemma number_eqb_eq x y : number_eqb x y = true <-> x = y.
Proof.
  split.
  - destruct x, y; try discriminate; try reflexivity; cbn [number_eqb].
    + now intros ->%Bool.eqb_prop.
    + intros [[->%Bool.eqb_prop ->%String.eqb_eq]%andb_true_iff ->%Z.eqb_eq]%andb_true_iff.
      reflexivity.
  - intros <-. destruct x; cbn [number_eqb]; trivial.
    + apply Bool.eqb_reflx.
    + now rewrite Bool.eqb_reflx, String.eqb_refl, Z.eqb_refl.
Qed.

(** A Number is the double nearest to itself. *)
Lemma number_wf_double x : number_wf x = true -> to_double x = x.
Proof.
  destruct x; try reflexivity. unfold number_wf.
  intros [_ H]%andb_true_iff. now apply number_eqb_eq.
Qed.

Lemma number_wf_finite neg s n :
  number_wf (Finite neg s n) = true ->
  all_digits s = true
  /\ (exists c, first_char s = Some c /\ Ascii.eqb c "0" = false)
  /\ (exists c, last_char s = Some c /\ Ascii.eqb c "0" = false).
Proof.
  unfold number_wf, normal_digits.
  intros [[[Hd Hf]%andb_true_iff Hl]%andb_true_iff _]%andb_true_iff.
  split; [exact Hd |]. split.
  - destruct (first_char s) as [c|]; [|discriminate].
    exists c. split; [reflexivity | now apply negb_true_iff].
  - destruct (last_char s) as [c|]; [|discriminate].
    exists c. split; [reflexivity | now apply negb_true_iff].
Qed.

Lemma is_digit_not_minus c : is_digit c = true -> Ascii.eqb "-" c = false.
Proof.
  destruct (Ascii.eqb_spec "-" c) as [<- | ]; [discriminate | reflexivity].
Qed.

Lemma parse_number_text neg ip t fp t' e rest c :
  all_digits ip = true -> first_char ip = Some c ->
  (1 <? String.length ip)%nat && Ascii.eqb c "0" = false ->
  ends_digits t = true ->
  parse_fraction t = Some (fp, t') ->
  parse_exponent t' = Some (e, rest) ->
  parse_number (minus_sign neg +:+ ip +:+ t)
  = Some (to_double
            (number_of_digits neg (ip +:+ fp) (Z.of_nat (String.length ip) + e)),
          rest).
Proof.
  intros Hd Hc Hz Ht Hf He. unfold parse_number.
  destruct neg; cbn [minus_sign].
  - change (starts_with "-" ("-" +:+ ip +:+ t)) with (Some (ip +:+ t)).
    now apply (parse_unsigned_text true ip t fp t' e rest c).
  - destruct ip as [|x ip]; [discriminate |].
    assert (Hx : is_digit x = true)
      by (simpl in Hd; now apply andb_true_iff in Hd as [Hx _]).
    cbn [String.append starts_with].
    rewrite (is_digit_not_minus _ Hx).
    now apply (parse_unsigned_text false (String x ip) t fp t' e rest c).
Qed.

Lemma drop_nonempty k s :
  (k < String.length s)%nat -> str_drop k s <> "".
Proof.
  revert s; induction k as [|k IH]; intros [|c s]; simpl; intros H;
    try lia; try discriminate.
  apply IH. lia.
Qed.

Lemma exponent_text_starts e t :
  ends_digits (exponent_text e +:+ t) = true
  /\ parse_fraction (exponent_text e +:+ t) = Some ("", exponent_text e +:+ t).
Proof. split; reflexivity. Qed.

(** [JSON.parse] reads a finite Number back from what [Number::toString]
    printed, whatever delimiter follows. *)
Ltac same_number H :=
  match goal with
  | |- Some (to_double (Finite _ _ ?point), _) = Some (Finite _ _ ?n, _) =>
      replace point with n; [now rewrite H |]
  end.

Lemma parse_number_toString x rest :
  number_wf x = true -> Number_isFinite x = true -> delimited rest = true ->
  parse_number (Number_toString x +:+ rest) = Some (x, rest).
Proof.
  intros Hwf Hfin Hrest. destruct x as [| |  | neg s n]; try discriminate.
  - delimited_tail Hrest; reflexivity.
  - pose proof (number_wf_double _ Hwf) as Hdouble.
    apply number_wf_finite in Hwf as (Hd & (c & Hc & Hc0) & (c' & Hl & Hl0)).
    pose proof (delimited_ends_digits _ Hrest) as Hends.
    pose proof (parse_fraction_delimited _ Hrest) as Hfr.
    pose proof (parse_exponent_delimited _ Hrest) as Hex.
    unfold Number_toString. set (k := Z.of_nat (String.length s)).
    assert (Hk : 0 < k) by (destruct s; [discriminate | unfold k; simpl; lia]).
    destruct ((k <=? n) && (n <=? 21)) eqn:HA.
    { apply andb_true_iff in HA as [HA _]. apply Z.leb_le in HA.
      rewrite append_assoc.
      rewrite (parse_number_text neg (s +:+ zeros (Z.to_nat (n - k))) rest
                 "" rest 0 rest c).
      + rewrite append_empty, (number_of_digits_normal neg s _ c c'); trivial.
        same_number Hdouble. rewrite length_append, length_zeros. unfold k in *. lia.
      + rewrite all_digits_append, Hd. apply all_digits_zeros.
      + now apply first_char_append.
      + now rewrite Hc0, andb_false_r.
      + trivial.
      + trivial.
      + trivial. }
    destruct ((0 <? n) && (n <=? 21)) eqn:HB.
    { apply andb_true_iff in HB as [HB HB']. apply Z.ltb_lt in HB.
      apply Z.leb_le in HB'.
      assert (Hnk : n < k).
      { apply andb_false_iff in HA as [HA | HA];
          [apply Z.leb_gt in HA | apply Z.leb_gt in HA]; lia. }
      rewrite !append_assoc.
      rewrite (parse_number_text neg (str_take (Z.to_nat n) s)
                 ("." +:+ str_drop (Z.to_nat n) s +:+ rest)
                 (str_drop (Z.to_nat n) s) rest 0 rest c).
      + rewrite take_drop, (number_of_digits_exact neg s c c'); trivial.
        same_number Hdouble. rewrite length_take; unfold k in *; lia.
      + now apply all_digits_take.
      + apply first_char_take; [lia | trivial].
      + now rewrite Hc0, andb_false_r.
      + reflexivity.
      + apply parse_fraction_digits; trivial.
        * now apply all_digits_drop.
        * apply drop_nonempty. unfold k in *. lia.
      + trivial. }
    destruct ((-6 <? n) && (n <=? 0)) eqn:HC.
    { apply andb_true_iff in HC as [_ HC]. apply Z.leb_le in HC.
      rewrite !append_assoc.
      change ("0." +:+ zeros (Z.to_nat (- n)) +:+ s +:+ rest)
        with ("0" +:+ "." +:+ zeros (Z.to_nat (- n)) +:+ s +:+ rest).
      rewrite (parse_number_text neg "0"
                 ("." +:+ zeros (Z.to_nat (- n)) +:+ s +:+ rest)
                 (zeros (Z.to_nat (- n)) +:+ s) rest 0 rest "0").
      + rewrite (number_of_digits_small neg s _ c c'); trivial.
        same_number Hdouble. simpl String.length. lia.
      + reflexivity.
      + reflexivity.
      + reflexivity.
      + reflexivity.
      + rewrite <- (append_assoc (zeros (Z.to_nat (- n))) s rest).
        apply parse_fraction_digits; trivial.
        * rewrite all_digits_append, Hd. now rewrite all_digits_zeros.
        * destruct (zeros (Z.to_nat (- n))); destruct s; discriminate.
      + trivial. }
    destruct s as [|d s]; [discriminate |]. cbn [str_take str_drop].
    injection Hc as ->.
    destruct (k =? 1) eqn:H1.
    { apply Z.eqb_eq in H1.
      assert (s = "") as -> by (destruct s; [reflexivity | unfold k in H1; simpl in H1; lia]).
      rewrite !append_assoc.
      change ("" +:+ exponent_text (n - 1) +:+ rest)
        with (exponent_text (n - 1) +:+ rest).
      destruct (exponent_text_starts (n - 1) rest) as [He1 He2].
      rewrite (parse_number_text neg (String c "") (exponent_text (n - 1) +:+ rest)
                 "" (exponent_text (n - 1) +:+ rest) (n - 1) rest c).
      + rewrite append_empty, (number_of_digits_exact neg _ c c'); trivial.
        same_number Hdouble. simpl String.length. lia.
      + exact Hd.
      + reflexivity.
      + reflexivity.
      + exact He1.
      + exact He2.
      + now apply parse_exponent_text. }
    { apply Z.eqb_neq in H1.
      rewrite !append_assoc.
      destruct (exponent_text_starts (n - 1) rest) as [He1 He2].
      rewrite (parse_number_text neg (String c "")
                 ("." +:+ s +:+ exponent_text (n - 1) +:+ rest)
                 s (exponent_text (n - 1) +:+ rest) (n - 1) rest c).
      + change (String c "" +:+ s) with (String c s).
        rewrite (number_of_digits_exact neg _ c c'); trivial.
        same_number Hdouble. simpl String.length. lia.
      + simpl in Hd |- *. apply andb_true_iff in Hd as [-> _]. reflexivity.
      + reflexivity.
      + reflexivity.
      + reflexivity.
      + apply parse_fraction_digits; trivial.
        * simpl in Hd. now apply andb_true_iff in Hd as [_ ->].
        * destruct s; [unfold k in H1; simpl in H1; lia | discriminate].
      + now apply parse_exponent_text. }
Qed.

(** ** parseInt reads an integer back from its decimal notation *)

Lemma digit_cases c :
  is_digit c = true ->
  (c = "0" \/ c = "1" \/ c = "2" \/ c = "3" \/ c = "4" \/ c = "5" \/ c = "6"
   \/ c = "7" \/ c = "8" \/ c = "9")%char.
Proof.
  destruct c as [[] [] [] [] [] [] [] []]; intros H; try discriminate H; tauto.
Qed.

Ltac digit_char H :=
  apply digit_cases in H;
  destruct H as [-> | [-> | [-> | [-> | [-> | [-> | [-> | [-> | [-> | ->]]]]]]]]].

Lemma span_digits_all ds : all_digits ds = true -> span_digits ds = (ds, "").
Proof.
  intros H. rewrite <- (append_empty ds) at 1.
  now apply span_digits_append.
Qed.

(** A character of one byte that is not white space is where [trim_start]
    stops. *)
Lemma trim_start_ascii c s :
  (N_of_ascii c < 128)%N -> is_str_ws c = false ->
  trim_start (String c s) = String c s.
Proof.
  intros Hlt Hws. cbn [trim_start]. rewrite Hws.
  destruct s as [|d [|e s3]]; trivial; unfold is_str_ws2, is_str_ws3; cbv zeta;
    repeat match goal with
           | |- context [(N_of_ascii c =? ?k)%N] =>
               destruct (N.eqb_spec (N_of_ascii c) k); [lia |]
           end;
    reflexivity.
Qed.

Lemma parseInt_digits neg ds c :
  all_digits ds = true -> first_char ds = Some c ->
  parseInt (minus_sign neg +:+ ds)
  = to_double (number_of_digits neg ds (Z.of_nat (String.length ds))).
Proof.
  intros Hd Hc. destruct ds as [|x ds]; [discriminate |].
  assert (Hx : is_digit x = true)
    by (simpl in Hd; now apply andb_true_iff in Hd as [Hx _]).
  unfold parseInt. destruct neg; cbn [minus_sign String.append].
  - rewrite trim_start_ascii by (vm_compute; reflexivity).
    cbv iota beta. change (Ascii.eqb "-" "-") with true. cbv iota.
    rewrite (span_digits_all _ Hd). reflexivity.
  - assert (Ht : trim_start (String x ds) = String x ds)
      by (apply trim_start_ascii; digit_char Hx; vm_compute; reflexivity).
    rewrite Ht.
    assert (Hs : (if Ascii.eqb x "-" then (true, ds)
                  else if Ascii.eqb x "+" then (false, ds)
                  else (false, String x ds)) = (false, String x ds))
      by (digit_char Hx; reflexivity).
    rewrite Hs, (span_digits_all _ Hd). reflexivity.
Qed.

Lemma parseInt_toString x :
  number_wf x = true -> is_lesson_index x = true ->
  parseInt (Number_toString x) = x.
Proof.
  intros Hwf Hint. destruct x as [| | | neg s n]; try discriminate.
  - reflexivity.
  - pose proof (number_wf_double _ Hwf) as Hdouble.
    apply number_wf_finite in Hwf as (Hd & (c & Hc & Hc0) & (c' & Hl & Hl0)).
    unfold Number_toString. simpl in Hint. rewrite Hint.
    apply andb_true_iff in Hint as [Hk _]. apply Z.leb_le in Hk.
    rewrite (parseInt_digits neg _ c).
    + rewrite (number_of_digits_normal neg s _ c c'); trivial.
      rewrite length_append, length_zeros.
      replace (Z.of_nat (String.length s + Z.to_nat (n - Z.of_nat (String.length s))))
        with n by lia.
      exact Hdouble.
    + rewrite all_digits_append, Hd. apply all_digits_zeros.
    + now apply first_char_append.
Qed.

(** ** Strings: what [QuoteJSONString] prints, [JSON.parse] reads back *)

Lemma parse_quote_char c tl :
  parse_string_chars (quote_char c +:+ tl)
  = prepend (String c "") (parse_string_chars tl).
Proof. destruct c as [[] [] [] [] [] [] [] []]; reflexivity. Qed.

Lemma parse_quote_chars s rest :
  parse_string_chars (quote_chars s +:+ String dquote rest) = Some (s, rest).
Proof.
  induction s as [|c s IH]; [reflexivity |].
  cbn [quote_chars]. rewrite append_assoc, parse_quote_char, IH. reflexivity.
Qed.

Lemma parse_key_quoted k t :
  parse_key (QuoteJSONString k +:+ ":" +:+ t) = Some (k, t).
Proof.
  unfold parse_key, QuoteJSONString.
  change (skip_ws (String dquote (quote_chars k +:+ String dquote "") +:+ ":" +:+ t))
    with (String dquote ((quote_chars k +:+ String dquote "") +:+ ":" +:+ t)).
  cbn [starts_with]. change (Ascii.eqb dquote dquote) with true. cbn.
  rewrite append_assoc. cbn [String.append].
  rewrite parse_quote_chars. reflexivity.
Qed.

(** ** Values: what [JSON.stringify] prints, [JSON.parse] reads back *)

Lemma JSValue_nested_ind (P : JSValue -> Prop) :
  P JSNull ->
  (forall b, P (JSBool b)) ->
  (forall x, P (JSNumber x)) ->
  (forall s, P (JSString s)) ->
  (forall items, Forall P items -> P (JSArray items)) ->
  (forall props, Forall (fun kv => P (snd kv)) props -> P (JSObject props)) ->
  forall v, P v.
Proof.
  intros Hnull Hbool Hnum Hstr Harr Hobj.
  fix IH 1. intros [ | b | x | s | items | props].
  - exact Hnull.
  - apply Hbool.
  - apply Hnum.
  - apply Hstr.
  - apply Harr. induction items as [|i items IHitems]; constructor.
    + apply IH.
    + exact IHitems.
  - apply Hobj. induction props as [|[k v] props IHprops]; constructor.
    + apply IH.
    + exact IHprops.
Qed.

Lemma value_start_facts c :
  value_start c = true ->
  is_json_ws c = false /\ Ascii.eqb "]" c = false /\ Ascii.eqb "}" c = false.
Proof.
  destruct c as [[] [] [] [] [] [] [] []]; intros H; try discriminate H;
    repeat split; reflexivity.
Qed.

Lemma number_head x :
  number_wf x = true -> Number_isFinite x = true ->
  exists c t, Number_toString x = String c t /\ (is_digit c = true \/ c = "-"%char).
Proof.
  intros Hwf Hfin. destruct x as [| | | neg s n]; try discriminate.
  - exists "0"%char, "". split; [reflexivity | now left].
  - apply number_wf_finite in Hwf as (Hd & (c & Hc & _) & _).
    unfold Number_toString. destruct neg; cbn [minus_sign String.append].
    + eexists _, _. split; [reflexivity | now right].
    + destruct s as [|d s]; [discriminate Hc |].
      simpl in Hd. apply andb_true_iff in Hd as [Hd _].
      set (k := Z.of_nat (String.length (String d s))).
      destruct ((k <=? n) && (n <=? 21)).
      { eexists _, _. split; [reflexivity | now left]. }
      destruct ((0 <? n) && (n <=? 21)) eqn:HB.
      { apply andb_true_iff in HB as [HB _]. apply Z.ltb_lt in HB.
        destruct (Z.to_nat n) as [|m] eqn:Hm; [lia |].
        eexists _, _. split; [reflexivity | now left]. }
      destruct ((-6 <? n) && (n <=? 0)).
      { eexists _, _. split; [reflexivity | now left]. }
      eexists _, _. split; [reflexivity | now left].
Qed.

Lemma digit_value_start c : is_digit c = true \/ c = "-"%char -> value_start c = true.
Proof. intros [H | ->]; [digit_char H |]; reflexivity. Qed.

Lemma stringify_start v :
  json_ok v = true ->
  exists c t, JSON_stringify v = String c t /\ value_start c = true.
Proof.
  destruct v as [ | [] | x | s | items | props]; intros Hok;
    try (eexists _, _; split; reflexivity).
  simpl in Hok. apply andb_true_iff in Hok as [Hwf Hfin].
  destruct (number_head x Hwf Hfin) as (c & t & Hx & Hc).
  exists c, t. cbn [JSON_stringify]. rewrite Hfin.
  split; [exact Hx | now apply digit_value_start].
Qed.

Lemma parse_value_number f x rest :
  number_wf x = true -> Number_isFinite x = true -> delimited rest = true ->
  parse_value (S f) (Number_toString x +:+ rest) = Some (JSNumber x, rest).
Proof.
  intros Hwf Hfin Hrest.
  pose proof (parse_number_toString x rest Hwf Hfin Hrest) as Hp.
  destruct (number_head x Hwf Hfin) as (c & t & Hx & Hc).
  rewrite Hx in Hp |- *. cbn [String.append] in Hp |- *.
  transitivity (parse_number (String c (t +:+ rest))
                  ≫= (fun '(y, r) => Some (JSNumber y, r))).
  - destruct Hc as [Hc | ->]; [digit_char Hc |]; reflexivity.
  - rewrite Hp. reflexivity.
Qed.

Lemma parse_value_array f c t :
  value_start c = true ->
  parse_value (S f) ("[" +:+ String c t)
  = '(v, r) ← parse_value f (String c t);
    '(vs, r') ← parse_elements f r;
    Some (JSArray (v :: vs), r').
Proof.
  intros (Hws & Hc & _)%value_start_facts.
  cbn [String.append parse_value]. cbn [skip_ws].
  change (is_json_ws "[") with false. cbv iota.
  change (Ascii.eqb "[" "[") with true. cbv iota.
  cbn [skip_ws]. rewrite Hws. cbn [starts_with]. rewrite Hc. reflexivity.
Qed.

Lemma parse_elements_next f t :
  parse_elements (S f) ("," +:+ t)
  = '(v, r) ← parse_value f t;
    '(vs, r') ← parse_elements f r;
    Some (v :: vs, r').
Proof. reflexivity. Qed.

Lemma parse_members_next f t :
  parse_members (S f) ("," +:+ t)
  = '(k, r1) ← parse_key t;
    '(v, r2) ← parse_value f r1;
    '(kvs, r3) ← parse_members f r2;
    Some ((k, v) :: kvs, r3).
Proof. reflexivity. Qed.

Lemma parse_value_object f t :
  parse_value (S f) ("{" +:+ String dquote t)
  = '(k, r1) ← parse_key (String dquote t);
    '(v, r2) ← parse_value f r1;
    '(kvs, r3) ← parse_members f r2;
    Some (build_object ((k, v) :: kvs), r3).
Proof. reflexivity. Qed.

Lemma join_cons sep a b l : join sep (a :: b :: l) = a +:+ sep +:+ join sep (b :: l).
Proof. reflexivity. Qed.

Lemma join_more_elements items i :
  join "," (JSON_stringify i :: map JSON_stringify items) +:+ "]"
  = JSON_stringify i +:+ more_elements items.
Proof.
  revert i. induction items as [|j items IH]; intros i; [reflexivity |].
  cbn [map more_elements]. rewrite join_cons, !append_assoc, IH. reflexivity.
Qed.

Lemma join_more_members props kv :
  join "," (member_text kv :: map member_text props) +:+ "}"
  = member_text kv +:+ more_members props.
Proof.
  revert kv. induction props as [|kv' props IH]; intros kv; [reflexivity |].
  cbn [map more_members]. rewrite join_cons, !append_assoc, IH.
  unfold member_text at 2. rewrite !append_assoc. reflexivity.
Qed.

Lemma delimited_more_elements items rest :
  delimited (more_elements items +:+ rest) = true.
Proof. destruct items; reflexivity. Qed.

Lemma delimited_more_members props rest :
  delimited (more_members props +:+ rest) = true.
Proof. destruct props; reflexivity. Qed.

Lemma starts_value_stringify v rest :
  json_ok v = true -> starts_value (JSON_stringify v +:+ rest) = true.
Proof.
  intros Hok. destruct (stringify_start v Hok) as (c & t & -> & Hc). exact Hc.
Qed.

Lemma parse_value_elements f T :
  starts_value T = true ->
  parse_value (S f) ("[" +:+ T)
  = '(v, r) ← parse_value f T;
    '(vs, r') ← parse_elements f r;
    Some (JSArray (v :: vs), r').
Proof. destruct T as [|c t]; [discriminate |]. apply parse_value_array. Qed.

Lemma parse_value_members f k T :
  parse_value (S f) ("{" +:+ QuoteJSONString k +:+ T)
  = '(k, r1) ← parse_key (QuoteJSONString k +:+ T);
    '(v, r2) ← parse_value f r1;
    '(kvs, r3) ← parse_members f r2;
    Some (build_object ((k, v) :: kvs), r3).
Proof. reflexivity. Qed.

Lemma parse_more_elements items :
  Forall reads_back items -> forallb json_ok items = true ->
  forall f rest,
    (fold_right (fun i n => S (Nat.max (depth i) n)) 1%nat items <= f)%nat ->
    delimited rest = true ->
    parse_elements f (more_elements items +:+ rest) = Some (items, rest).
Proof.
  induction 1 as [|i items Hi _ IH]; intros Hok f rest Hf Hrest;
    (destruct f as [|f]; [simpl in Hf; lia |]).
  - reflexivity.
  - cbn [forallb] in Hok. apply andb_true_iff in Hok as [Hoki Hok].
    cbn [fold_right] in Hf. cbn [more_elements].
    rewrite !append_assoc, parse_elements_next.
    rewrite (Hi Hoki) by (try lia; apply delimited_more_elements).
    cbn. rewrite IH by (trivial; lia). reflexivity.
Qed.

Lemma parse_more_members props :
  Forall (fun kv => reads_back (snd kv)) props ->
  forallb (fun kv => json_ok (snd kv)) props = true ->
  forall f rest,
    (fold_right (fun kv n => S (Nat.max (depth (snd kv)) n)) 1%nat props <= f)%nat ->
    delimited rest = true ->
    parse_members f (more_members props +:+ rest) = Some (props, rest).
Proof.
  induction 1 as [|[k v] props Hv _ IH]; intros Hok f rest Hf Hrest;
    (destruct f as [|f]; [simpl in Hf; lia |]).
  - reflexivity.
  - cbn [forallb snd] in Hok. apply andb_true_iff in Hok as [Hokv Hok].
    cbn [snd] in Hv.
    cbn [fold_right snd] in Hf. cbn [more_members fst snd].
    rewrite !append_assoc, parse_members_next, parse_key_quoted.
    cbn. rewrite (Hv Hokv) by (try lia; apply delimited_more_members).
    cbn. rewrite IH by (trivial; lia). reflexivity.
Qed.

Lemma existsb_eqb_elem k (ks : list string) :
  existsb (String.eqb k) ks = true <-> k ∈ ks.
Proof.
  rewrite existsb_exists, list_elem_of_In. split.
  - intros (x & Hx & ->%String.eqb_eq). exact Hx.
  - intros H. exists k. split; [exact H | apply String.eqb_refl].
Qed.

Lemma distinct_NoDup (ks : list string) : distinct ks = true <-> NoDup ks.
Proof.
  induction ks as [|k ks IH]; simpl.
  - split; [constructor | reflexivity].
  - rewrite andb_true_iff, negb_true_iff, NoDup_cons, IH.
    rewrite <- not_true_iff_false, existsb_eqb_elem. reflexivity.
Qed.

Lemma set_prop_fresh k v props :
  k ∉ map fst props -> set_prop k v props = (props ++ [(k, v)])%list.
Proof.
  induction props as [|[k' v'] props IH]; simpl; intros Hk; [reflexivity |].
  apply not_elem_of_cons in Hk as [Hne Hk].
  destruct (String.eqb_spec k k'); [congruence |]. now rewrite IH.
Qed.

Lemma fold_set_prop members acc :
  NoDup (map fst acc ++ map fst members)%list ->
  fold_left (fun o kv => set_prop (fst kv) (snd kv) o) members acc
  = (acc ++ members)%list.
Proof.
  revert acc. induction members as [|[k v] members IH]; intros acc Hnd; simpl.
  - now rewrite app_nil_r.
  - rewrite set_prop_fresh.
    + rewrite IH; [now rewrite <- app_assoc |].
      rewrite map_app. simpl. now rewrite <- app_assoc.
    + apply NoDup_app in Hnd as (_ & Hnd & _). intros Hin.
      apply (Hnd k Hin). simpl. left.
Qed.

Lemma build_object_distinct members :
  distinct (map fst members) = true -> build_object members = JSObject members.
Proof.
  intros H%distinct_NoDup. unfold build_object.
  now rewrite fold_set_prop.
Qed.

(** The reader inverts the serialiser on every value JSON represents. *)
Lemma parse_value_stringify v : reads_back v.
Proof.
  induction v as [ | b | x | s | items IH | props IH] using JSValue_nested_ind;
    intros Hok fuel rest Hfuel Hrest;
    (destruct fuel as [|f]; [simpl in Hfuel; lia |]).
  - reflexivity.
  - destruct b; reflexivity.
  - simpl in Hok. apply andb_true_iff in Hok as [Hwf Hfin].
    cbn [JSON_stringify]. rewrite Hfin. now apply parse_value_number.
  - cbn [JSON_stringify]. unfold QuoteJSONString.
    transitivity (parse_string_chars ((quote_chars s +:+ String dquote "") +:+ rest)
                    ≫= (fun '(str, r) => Some (JSString str, r))); [reflexivity |].
    rewrite append_assoc. cbn [String.append]. rewrite parse_quote_chars.
    reflexivity.
  - destruct items as [|i items]; [reflexivity |].
    apply Forall_cons in IH as [Hi IH].
    cbn [json_ok forallb] in Hok. apply andb_true_iff in Hok as [Hoki Hok].
    cbn [depth fold_right] in Hfuel.
    cbn [JSON_stringify map]. rewrite !append_assoc.
    rewrite <- (append_assoc (join _ _) "]" rest), join_more_elements, append_assoc.
    rewrite parse_value_elements by now apply starts_value_stringify.
    rewrite (Hi Hoki) by (try lia; apply delimited_more_elements).
    cbn. rewrite parse_more_elements by (trivial; lia). reflexivity.
  - destruct props as [|[k v] props]; [reflexivity |].
    apply Forall_cons in IH as [Hv IH]. cbn [snd] in Hv.
    cbn [json_ok forallb map fst snd] in Hok.
    apply andb_true_iff in Hok as [Hdist Hok].
    apply andb_true_iff in Hok as [Hokv Hok].
    cbn [depth fold_right snd] in Hfuel.
    cbn [JSON_stringify]. rewrite !append_assoc.
    change (map (fun kv => QuoteJSONString (fst kv) +:+ ":" +:+ JSON_stringify (snd kv))
              ((k, v) :: props))
      with (member_text (k, v) :: map member_text props).
    rewrite <- (append_assoc (join _ _) "}" rest), join_more_members.
    unfold member_text at 1. cbn [fst snd]. rewrite !append_assoc.
    rewrite parse_value_members, parse_key_quoted. cbn.
    rewrite (Hv Hokv) by (try lia; apply delimited_more_members).
    cbn. rewrite parse_more_members by (trivial; lia).
    cbn. rewrite build_object_distinct by exact Hdist. reflexivity.
Qed.

Lemma depth_positive v : (1 <= depth v)%nat.
Proof. destruct v; simpl; lia. Qed.

Lemma length_quoted k : (2 <= String.length (QuoteJSONString k))%nat.
Proof.
  unfold QuoteJSONString. cbn [String.length].
  rewrite length_append. simpl. lia.
Qed.

Lemma cost_elements items :
  Forall (fun v => json_ok v = true ->
                   (depth v <= String.length (JSON_stringify v))%nat) items ->
  forallb json_ok items = true ->
  (1 <= fold_right (fun i n => S (Nat.max (depth i) n)) 1%nat items
   <= String.length (more_elements items))%nat.
Proof.
  induction 1 as [|i items Hi _ IH]; intros Hok; [simpl; lia |].
  cbn [forallb] in Hok. apply andb_true_iff in Hok as [Hoki Hok].
  specialize (Hi Hoki). specialize (IH Hok).
  cbn [fold_right more_elements String.length String.append].
  rewrite length_append. lia.
Qed.

Lemma cost_members props :
  Forall (fun kv => json_ok (snd kv) = true ->
                    (depth (snd kv) <= String.length (JSON_stringify (snd kv)))%nat)
         props ->
  forallb (fun kv => json_ok (snd kv)) props = true ->
  (1 <= fold_right (fun kv n => S (Nat.max (depth (snd kv)) n)) 1%nat props
   <= String.length (more_members props))%nat.
Proof.
  induction 1 as [|[k v] props Hv _ IH]; intros Hok; [simpl; lia |].
  cbn [forallb snd] in Hok. apply andb_true_iff in Hok as [Hokv Hok].
  cbn [snd] in Hv. specialize (Hv Hokv). specialize (IH Hok).
  cbn [fold_right more_members fst snd].
  repeat (rewrite length_append || cbn [String.length String.append]).
  pose proof (length_quoted k). lia.
Qed.

(** The fuel [JSON_parse] starts with covers the depth of what was printed. *)
Lemma depth_le_length v :
  json_ok v = true -> (depth v <= String.length (JSON_stringify v))%nat.
Proof.
  induction v as [ | b | x | s | items IH | props IH] using JSValue_nested_ind;
    intros Hok.
  - simpl. lia.
  - destruct b; simpl; lia.
  - destruct (stringify_start _ Hok) as (c & t & -> & _). simpl. lia.
  - pose proof (length_quoted s). simpl. lia.
  - destruct items as [|i items]; [simpl; lia |].
    apply Forall_cons in IH as [Hi IH].
    cbn [json_ok forallb] in Hok. apply andb_true_iff in Hok as [Hoki Hok].
    specialize (Hi Hoki). pose proof (cost_elements items IH Hok).
    pose proof (depth_positive i).
    cbn [JSON_stringify map]. rewrite join_more_elements.
    cbn [depth fold_right String.length String.append].
    rewrite length_append. lia.
  - destruct props as [|[k v] props]; [simpl; lia |].
    apply Forall_cons in IH as [Hv IH]. cbn [snd] in Hv.
    cbn [json_ok forallb map fst snd] in Hok.
    apply andb_true_iff in Hok as [_ Hok].
    apply andb_true_iff in Hok as [Hokv Hok].
    specialize (Hv Hokv). pose proof (cost_members props IH Hok).
    pose proof (depth_positive v). pose proof (length_quoted k).
    cbn [JSON_stringify].
    change (map (fun kv => QuoteJSONString (fst kv) +:+ ":" +:+ JSON_stringify (snd kv))
              ((k, v) :: props))
      with (member_text (k, v) :: map member_text props).
    rewrite join_more_members. unfold member_text at 1.
    cbn [depth fold_right fst snd].
    repeat (rewrite length_append || cbn [String.length String.append]). lia.
Qed.

(** [JSON.parse(JSON.stringify(v))] is [v]. *)
Lemma JSON_parse_stringify v :
  json_ok v = true -> JSON_parse (JSON_stringify v) = Normal v.
Proof.
  intros Hok. unfold JSON_parse.
  pose proof (parse_value_stringify v Hok (S (String.length (JSON_stringify v))) ""
                ltac:(pose proof (depth_le_length v Hok); lia) eq_refl) as H.
  rewrite append_empty in H. rewrite H. reflexivity.
Qed.

(** ** Running the module *)

Ltac run_step :=
  unfold await, resolve, settle, record, with_storage,
    AsyncStorage.getItem, AsyncStorage.setItem, AsyncStorage.removeItem,
    DownloadManager.genIsDownloaded, DownloadManager.genDeleteDownload,
    CourseData.getLessonIndices, log, uuid;
  cbn [Promise_all fst snd storage downloads lessonIndices entropy calls].

Ltac run := repeat progress run_step.

Lemma length_hex_bytes bs : String.length (hex_bytes bs) = (2 * length bs)%nat.
Proof.
  induction bs as [|b bs IH]; [reflexivity |].
  change (hex_bytes (b :: bs)) with (hex_byte b +:+ hex_bytes bs).
  rewrite length_append, IH. cbn [hex_byte String.length length]. lia.
Qed.

(** A [v4] uuid is 36 characters long, whatever the random bytes. *)
Lemma length_uuid rnds : String.length (unsafeStringify (v4_bytes rnds)) = 36%nat.
Proof.
  unfold unsafeStringify.
  repeat (rewrite length_append || rewrite length_hex_bytes
          || cbn [String.length String.append]).
  unfold v4_bytes. cbn [seq map firstn skipn length]. reflexivity.
Qed.

Lemma uuid_truthy rnds : exists c t, unsafeStringify (v4_bytes rnds) = String c t.
Proof.
  pose proof (length_uuid rnds) as H.
  destruct (unsafeStringify (v4_bytes rnds)) as [|c t]; [discriminate | eauto].
Qed.

Lemma hex_digit_inj a b :
  (a < 16)%N -> (b < 16)%N -> hex_digit a = hex_digit b -> a = b.
Proof.
  intros Ha Hb H. apply (f_equal N_of_ascii) in H. unfold hex_digit in H.
  rewrite !N_ascii_embedding in H
    by (match goal with
        | |- context [(?x <? 10)%N] => destruct (x <? 10)%N
        end; lia).
  destruct (N.ltb_spec a 10), (N.ltb_spec b 10); lia.
Qed.

Lemma hex_byte_inj a b :
  (a < 256)%N -> (b < 256)%N -> hex_byte a = hex_byte b -> a = b.
Proof.
  intros Ha Hb [= Hhi Hlo].
  apply hex_digit_inj in Hhi; [| apply N.Div0.div_lt_upper_bound; lia ..].
  apply hex_digit_inj in Hlo; [| apply N.mod_lt; lia ..].
  rewrite (N.div_mod a 16), (N.div_mod b 16) by lia. now rewrite Hhi, Hlo.
Qed.

(** Bytes can be read back from their hexadecimal notation, whatever text
    follows. *)
Lemma hex_bytes_inj l : forall l' r r',
  Forall (fun b => (b < 256)%N) l -> Forall (fun b => (b < 256)%N) l' ->
  length l = length l' ->
  hex_bytes l +:+ r = hex_bytes l' +:+ r' -> l = l' /\ r = r'.
Proof.
  induction l as [|b l IH]; intros [|b' l'] r r' Hl Hl' Hlen; try discriminate.
  - intros H. now split.
  - apply Forall_cons in Hl as [Hb Hl]. apply Forall_cons in Hl' as [Hb' Hl'].
    change (hex_bytes (b :: l)) with (hex_byte b +:+ hex_bytes l).
    change (hex_bytes (b' :: l')) with (hex_byte b' +:+ hex_bytes l').
    unfold hex_byte. cbn [String.append]. intros [= H1 H2 H].
    destruct (IH l' r r' Hl Hl' ltac:(now injection Hlen) H) as [-> ->].
    split; [| reflexivity]. f_equal. apply hex_byte_inj; trivial.
    unfold hex_byte. now rewrite H1, H2.
Qed.

Lemma lor_version y : (y < 16)%N -> N.lor y 64 = (y + 64)%N.
Proof.
  intros H. destruct y as [|p]; [reflexivity |].
  repeat (destruct p as [p|p|]; try reflexivity; try (exfalso; lia)).
Qed.

Lemma lor_variant y : (y < 64)%N -> N.lor y 128 = (y + 128)%N.
Proof.
  intros H. destruct y as [|p]; [reflexivity |].
  repeat (destruct p as [p|p|]; try reflexivity; try (exfalso; lia)).
Qed.

Lemma land_15 b : N.land (b mod 256) 15 = (b mod 16)%N.
Proof.
  change 15%N with (N.ones 4). rewrite N.land_ones. change (2 ^ 4)%N with 16%N.
  change 256%N with (16 * 16)%N. rewrite N.Div0.mod_mul_r.
  rewrite (N.mul_comm 16), N.Div0.mod_add. apply N.Div0.mod_mod.
Qed.

Lemma land_63 b : N.land (b mod 256) 63 = (b mod 64)%N.
Proof.
  change 63%N with (N.ones 6). rewrite N.land_ones. change (2 ^ 6)%N with 64%N.
  change 256%N with (64 * 4)%N. rewrite N.Div0.mod_mul_r.
  rewrite (N.mul_comm 64), N.Div0.mod_add. apply N.Div0.mod_mod.
Qed.

(** The byte of a uuid at index [i]: the bits kept of the random byte, under
    the version [0100] in byte 6 and the variant [10] in byte 8. *)
Lemma v4_byte rnds i :
  (if Nat.eqb i 6 then N.lor (N.land (rnds i mod 256) 15) 64
   else if Nat.eqb i 8 then N.lor (N.land (rnds i mod 256) 63) 128
   else rnds i mod 256)%N
  = (kept_bits i (rnds i)
     + if Nat.eqb i 6 then 64 else if Nat.eqb i 8 then 128 else 0)%N.
Proof.
  unfold kept_bits. destruct (Nat.eqb i 6); [| destruct (Nat.eqb i 8)].
  - rewrite land_15. apply lor_version. apply N.mod_lt; lia.
  - rewrite land_63. apply lor_variant. apply N.mod_lt; lia.
  - now rewrite N.add_0_r.
Qed.

Lemma v4_bytes_kept rnds :
  v4_bytes rnds
  = map (fun i => (kept_bits i (rnds i)
                   + if Nat.eqb i 6 then 64 else if Nat.eqb i 8 then 128 else 0)%N)
        (seq 0 16).
Proof. unfold v4_bytes. apply map_ext. intros i. apply v4_byte. Qed.

Lemma kept_bits_bounded i b :
  (kept_bits i b + (if Nat.eqb i 6 then 64 else if Nat.eqb i 8 then 128 else 0) < 256)%N.
Proof.
  unfold kept_bits. destruct (Nat.eqb i 6); [| destruct (Nat.eqb i 8)].
  - pose proof (N.mod_lt b 16). lia.
  - pose proof (N.mod_lt b 64). lia.
  - pose proof (N.mod_lt b 256). lia.
Qed.

Lemma v4_bytes_bounded rnds : Forall (fun b => (b < 256)%N) (v4_bytes rnds).
Proof.
  rewrite v4_bytes_kept. apply Forall_forall.
  intros b [i [<- _]]%list_elem_of_In%in_map_iff. apply kept_bits_bounded.
Qed.

Lemma length_v4_bytes rnds : length (v4_bytes rnds) = 16%nat.
Proof. reflexivity. Qed.

(** A uuid is printed from its sixteen bytes without loss. *)
Lemma unsafeStringify_inj bs bs' :
  Forall (fun b => (b < 256)%N) bs -> Forall (fun b => (b < 256)%N) bs' ->
  length bs = 16%nat -> length bs' = 16%nat ->
  unsafeStringify bs = unsafeStringify bs' -> bs = bs'.
Proof.
  intros Hb Hb' Hl Hl'.
  do 17 (destruct bs as [|? bs]; try discriminate Hl).
  do 17 (destruct bs' as [|? bs']; try discriminate Hl').
  clear Hl Hl'. unfold unsafeStringify. cbn [firstn skipn].
  repeat match goal with
         | H : Forall _ (_ :: _) |- _ => apply Forall_cons in H as [? H]
         end.
  intros Heq.
  apply hex_bytes_inj in Heq as [E1 Heq]; [| repeat constructor; assumption .. | reflexivity].
  apply (f_equal (str_drop 1)) in Heq; cbn [str_drop String.append] in Heq.
  apply hex_bytes_inj in Heq as [E2 Heq]; [| repeat constructor; assumption .. | reflexivity].
  apply (f_equal (str_drop 1)) in Heq; cbn [str_drop String.append] in Heq.
  apply hex_bytes_inj in Heq as [E3 Heq]; [| repeat constructor; assumption .. | reflexivity].
  apply (f_equal (str_drop 1)) in Heq; cbn [str_drop String.append] in Heq.
  apply hex_bytes_inj in Heq as [E4 Heq]; [| repeat constructor; assumption .. | reflexivity].
  apply (f_equal (str_drop 1)) in Heq; cbn [str_drop String.append] in Heq.
  rewrite <- (append_empty (hex_bytes [n9; n10; n11; n12; n13; n14])) in Heq.
  rewrite <- (append_empty (hex_bytes [n25; n26; n27; n28; n29; n30])) in Heq.
  apply hex_bytes_inj in Heq as [E5 _]; [| repeat constructor; assumption .. | reflexivity].
  congruence.
Qed.

(** A uuid spells out the random bits it was made of: two uuids are the
    same only if the bytes they were made of agree in every bit kept. *)
Lemma uuid_inj rnds rnds' :
  unsafeStringify (v4_bytes rnds) = unsafeStringify (v4_bytes rnds') ->
  forall i, (i < 16)%nat -> kept_bits i (rnds i) = kept_bits i (rnds' i).
Proof.
  intros H%unsafeStringify_inj;
    [| apply v4_bytes_bounded | apply v4_bytes_bounded | reflexivity | reflexivity].
  rewrite !v4_bytes_kept in H. intros i Hi.
  assert (Hin : In i (seq 0 16)) by (apply in_seq; lia).
  apply (proj1 map_ext_in_iff H) in Hin. cbv beta in Hin. lia.
Qed.

Lemma uuid_same rnds rnds' :
  (forall i, (i < 16)%nat -> kept_bits i (rnds i) = kept_bits i (rnds' i)) ->
  unsafeStringify (v4_bytes rnds) = unsafeStringify (v4_bytes rnds').
Proof.
  intros H. rewrite !v4_bytes_kept. f_equal. apply map_ext_in.
  intros i Hi%in_seq. rewrite H by lia. reflexivity.
Qed.

Lemma uuid_differ rnds rnds' :
  differ rnds rnds' ->
  unsafeStringify (v4_bytes rnds) <> unsafeStringify (v4_bytes rnds').
Proof. intros (i & Hi & Hne) Heq. apply Hne. now apply uuid_inj. Qed.


(** C8: [genProgressForLesson] with no lesson returns [null] and touches
    nothing, not even for a read (the world, journal included, is the one it
    started in); with a lesson whose progress key is unset it returns the
    default record [{finished: false, progress: null}]. *)
Theorem genProgressForLesson_absent_or_unset (course : Course) (w : World) :
  genProgressForLesson course None w = (Normal JSNull, w)
  /\ forall lesson,
       storage w !! ("@activity/" +:+ course +:+ "/" +:+ Number_toString lesson) = None ->
       fst (genProgressForLesson course (Some lesson) w)
       = Normal (JSObject [("finished", JSBool false); ("progress", JSNull)]).
Proof.
  split; [reflexivity |].
  intros lesson Hunset. unfold genProgressForLesson. run.
  rewrite Hunset. reflexivity.
Qed.

(** C9: the getter of each of the eight preferences, started where the
    preference's key is unset, returns the declared default and leaves the
    store as it was. *)
Theorem preference_default_not_persisted (name : Preference) (w : World) :
  storage w !! ("@preferences/" +:+ Preference_value name) = None ->
  fst (fst (exported name) w) = Normal (declared_default name)
  /\ storage (snd (fst (exported name) w)) = storage w.
Proof.
  intros Hunset.
  destruct name; cbn [exported fst]; cbn [Preference_value] in Hunset;
    match goal with
    | |- context [fst (?g w)] => unfold g
    end;
    cbn [preference fst Preference_value]; run; rewrite Hunset; split; reflexivity.
Qed.

(** C10: when the token key holds the empty string, [genMetricsToken] does
    not return it: the empty string being falsy, a uuid is made from the
    next sixteen random bytes, written over the stored empty string, and
    returned.  The token is random: it has the 36 characters of a uuid and
    spells out the random bits drawn, so that bytes differing in any bit
    kept would have made another token; and the bytes are used up, the next
    uuid being made from the bytes after them. *)
Theorem genMetricsToken_empty_string_regenerated (w : World) :
  storage w !! "@metrics/user-token" = Some "" ->
  exists token w',
    genMetricsToken w = (Normal token, w')
    /\ token = unsafeStringify (v4_bytes (entropy w))
    /\ token <> ""
    /\ storage w' = <["@metrics/user-token" := token]> (storage w)
    /\ storage w' !! "@metrics/user-token" = Some token
    /\ String.length token = 36%nat
    /\ (forall rnds,
          token = unsafeStringify (v4_bytes rnds) ->
          forall i, (i < 16)%nat -> kept_bits i (rnds i) = kept_bits i (entropy w i))
    /\ (forall rnds, differ rnds (entropy w) -> unsafeStringify (v4_bytes rnds) <> token)
    /\ (forall i, entropy w' i = entropy w (16 + i)%nat).
Proof.
  intros Hempty. eexists _, _. unfold genMetricsToken. run. rewrite Hempty. run.
  split; [reflexivity |]. split; [reflexivity |]. split.
  { destruct (uuid_truthy (entropy w)) as (c & t & ->). discriminate. }
  split; [reflexivity |]. split; [apply lookup_insert_eq |].
  split; [apply length_uuid |]. split.
  { intros rnds Heq i Hi. symmetry. now apply uuid_inj. }
  split; [intros rnds; apply uuid_differ | reflexivity].
Qed.

(** ** Keys do not collide *)

Lemma contains_append c a b : contains c (a +:+ b) = contains c a || contains c b.
Proof.
  induction a as [|x a IH]; simpl; [reflexivity |].
  now rewrite IH, orb_assoc.
Qed.

Lemma activity_key_inj a b : "@activity/" +:+ a = "@activity/" +:+ b -> a = b.
Proof. cbn [String.append]. congruence. Qed.

Lemma progress_key_not_recent_course course x :
  "@activity/" +:+ course +:+ "/" +:+ x <> recent_course_key.
Proof.
  intros H%(activity_key_inj _ "most-recent-course").
  apply (f_equal (contains "/")) in H.
  rewrite contains_append in H. cbn in H. rewrite orb_true_r in H. discriminate.
Qed.

Lemma number_text_not_word x :
  number_wf x = true -> Number_toString x <> "most-recent-lesson".
Proof.
  intros Hwf. destruct (Number_isFinite x) eqn:Hfin.
  - destruct (number_head x Hwf Hfin) as (c & t & -> & [Hc | ->]);
      [digit_char Hc |]; discriminate.
  - destruct x as [|[]| |]; discriminate.
Qed.

Lemma progress_key_not_recent_lesson course lesson :
  number_wf lesson = true ->
  progress_key course lesson <> recent_lesson_key course.
Proof.
  intros Hwf H%activity_key_inj.
  apply (inj (String.append course)) in H. cbn [String.append] in H.
  injection H as H. now apply number_text_not_word in H.
Qed.

Lemma activity_key_not_preference a name :
  "@activity/" +:+ a <> "@preferences/" +:+ name.
Proof. cbn [String.append]. congruence. Qed.

(** ** Progress and recency *)

Lemma genProgressForLesson_some course lesson w :
  genProgressForLesson course (Some lesson) w
  = (match storage w !! progress_key course lesson with
     | None => Normal (JSObject [("finished", JSBool false); ("progress", JSNull)])
     | Some text => JSON_parse text
     end,
     record (GetItem (progress_key course lesson)) w).
Proof.
  unfold genProgressForLesson. run.
  destruct (storage w !! progress_key course lesson); reflexivity.
Qed.

Lemma genUpdateProgressForLesson_run course lesson progress w :
  genUpdateProgressForLesson course lesson progress w
  = match fst (genProgressForLesson course (Some lesson) w) with
    | Normal old =>
        (Normal tt,
         written course lesson
           (JSON_stringify
              (JSObject (set_prop "progress" (JSNumber progress) (own_props old))))
           w)
    | Throw e => (Throw e, record (GetItem (progress_key course lesson)) w)
    end.
Proof.
  unfold genUpdateProgressForLesson. unfold await at 1.
  rewrite genProgressForLesson_some. cbn [fst].
  destruct (match storage w !! progress_key course lesson with
            | None => _ | Some text => _ end) as [old | e]; [|reflexivity].
  run. unfold written. rewrite <- !app_assoc. reflexivity.
Qed.

(** C5: once [genUpdateProgressForLesson(C, L, N)] has completed, the most
    recent course is [C] and the most recent lesson of [C] is [L], whatever
    the two pointers held before.  [L] is a lesson index: an integer. *)
Theorem recency_pointers_after_update
    (course : Course) (lesson progress : number) (w w' : World) :
  number_wf lesson = true -> is_lesson_index lesson = true ->
  genUpdateProgressForLesson course lesson progress w = (Normal tt, w') ->
  fst (genMostRecentListenedCourse w') = Normal (Some course)
  /\ fst (genMostRecentListenedLessonForCourse course w') = Normal (Some lesson).
Proof.
  intros Hwf Hint Hrun. rewrite genUpdateProgressForLesson_run in Hrun.
  destruct (fst (genProgressForLesson course (Some lesson) w)) as [old | e];
    [| discriminate].
  injection Hrun as <-.
  unfold genMostRecentListenedCourse, genMostRecentListenedLessonForCourse, written.
  run.
  split.
  - now rewrite lookup_insert_eq.
  - rewrite lookup_insert_ne, lookup_insert_eq.
    + run. now rewrite parseInt_toString.
    + intros H. symmetry in H. revert H.
      apply (progress_key_not_recent_course course "most-recent-lesson").
Qed.

(** ** Deleting the progress of a course *)

Lemma remove_all_cons a keys (m : gmap string string) :
  remove_all (a :: keys) m = remove_all keys (delete a m).
Proof. reflexivity. Qed.

Lemma remove_all_absent keys (m : gmap string string) k :
  m !! k = None -> remove_all keys m !! k = None.
Proof.
  revert m. induction keys as [|a keys IH]; intros m Hk; [exact Hk |].
  rewrite remove_all_cons. apply IH. destruct (decide (a = k)) as [-> | Hne].
  - apply lookup_delete_eq.
  - now rewrite lookup_delete_ne.
Qed.

Lemma remove_all_member keys (m : gmap string string) k :
  In k keys -> remove_all keys m !! k = None.
Proof.
  revert m. induction keys as [|a keys IH]; intros m; [intros [] |].
  rewrite remove_all_cons. intros [-> | Hin].
  - apply remove_all_absent, lookup_delete_eq.
  - now apply IH.
Qed.

Lemma remove_all_other keys (m : gmap string string) k :
  ~ In k keys -> remove_all keys m !! k = m !! k.
Proof.
  revert m. induction keys as [|a keys IH]; intros m Hk; [reflexivity |].
  rewrite remove_all_cons.
  rewrite IH by (intros H; apply Hk; now right).
  apply lookup_delete_ne. intros ->. apply Hk. now left.
Qed.

Lemma removals_storage ps keys :
  Forall2 (fun p k => p = AsyncStorage.removeItem k) ps keys ->
  forall w,
    fst (Promise_all ps w) = Normal tt
    /\ storage (snd (Promise_all ps w)) = remove_all keys (storage w).
Proof.
  induction 1 as [|p k ps keys -> _ IH]; intros w; [split; reflexivity |].
  cbn [Promise_all]. unfold AsyncStorage.removeItem. cbv beta iota zeta.
  specialize (IH (record (RemoveItem k) (with_storage (delete k) w))).
  destruct (Promise_all ps _) as [r w2]. cbn [fst snd] in IH |- *.
  destruct IH as [-> ->]. split; reflexivity.
Qed.

Lemma removals_of_lessons course lessons :
  Forall2 (fun p k => p = AsyncStorage.removeItem k)
    (map (fun lesson => AsyncStorage.removeItem (progress_key course lesson)) lessons)
    (map (fun lesson => progress_key course lesson) lessons).
Proof. induction lessons; constructor; trivial. Qed.

Lemma genDeleteProgressForCourse_storage course w :
  fst (genDeleteProgressForCourse course w) = Normal tt
  /\ storage (snd (genDeleteProgressForCourse course w))
     = remove_all
         ([recent_lesson_key course]
          ++ (if match storage w !! recent_course_key with
                 | Some c => String.eqb c course
                 | None => false
                 end
              then [recent_course_key] else [])
          ++ map (fun lesson => progress_key course lesson) (lessonIndices w course))
         (storage w).
Proof.
  unfold genDeleteProgressForCourse.
  unfold await, AsyncStorage.getItem at 1, CourseData.getLessonIndices.
  cbn [fst snd storage lessonIndices record].
  set (b := match storage w !! recent_course_key with
            | Some c => String.eqb c course
            | None => false
            end).
  apply (removals_storage _ _) with (w := record (GetItem recent_course_key) w).
  repeat apply Forall2_app.
  - now constructor.
  - destruct b; repeat constructor.
  - apply removals_of_lessons.
Qed.

(** C4: [genDeleteProgressForCourse(C)] removes the progress key of every
    lesson index the catalog reports for [C] and the most-recent-lesson key
    of [C]; the most-recent-course pointer is unset afterwards when it was
    [C], and is what it was when it was another course. *)
Theorem genDeleteProgressForCourse_removes (course : Course) (w : World) :
  fst (genDeleteProgressForCourse course w) = Normal tt
  /\ (forall lesson,
        In lesson (lessonIndices w course) ->
        storage (snd (genDeleteProgressForCourse course w))
          !! progress_key course lesson = None)
  /\ storage (snd (genDeleteProgressForCourse course w))
       !! recent_lesson_key course = None
  /\ (storage w !! recent_course_key = Some course ->
      fst (genMostRecentListenedCourse (snd (genDeleteProgressForCourse course w)))
      = Normal None)
  /\ (forall other,
        storage w !! recent_course_key = Some other -> other <> course ->
        fst (genMostRecentListenedCourse (snd (genDeleteProgressForCourse course w)))
        = Normal (Some other)).
Proof.
  destruct (genDeleteProgressForCourse_storage course w) as [Hdone Hstore].
  split; [exact Hdone |].
  unfold genMostRecentListenedCourse, AsyncStorage.getItem. cbn [fst].
  rewrite Hstore. repeat split.
  - intros lesson Hin. apply remove_all_member.
    apply in_or_app. right. apply in_or_app. right.
    now apply (in_map (fun lesson => progress_key course lesson)).
  - apply remove_all_member. now left.
  - intros ->. rewrite String.eqb_refl. f_equal.
    apply remove_all_member. right. now left.
  - intros other Hother Hne. rewrite Hother.
    destruct (String.eqb_spec other course) as [-> | _]; [congruence |].
    f_equal. rewrite remove_all_other; [exact Hother |].
    cbn [app]. intros [H | H].
    + revert H. apply (progress_key_not_recent_course course "most-recent-lesson").
    + apply in_map_iff in H as (lesson & H & _).
      revert H. apply progress_key_not_recent_course.
Qed.

(** ** Marking a lesson finished *)

Lemma deletions_app cs cs' : deletions (cs ++ cs') = (deletions cs ++ deletions cs')%list.
Proof.
  induction cs as [|c cs IH]; [reflexivity |].
  destruct c; cbn [app deletions]; rewrite IH; reflexivity.
Qed.

Lemma genPreferenceAutoDeleteFinished_value w :
  fst (genPreferenceAutoDeleteFinished w)
  = Normal (JSBool match storage w !! "@preferences/auto-delete-finished" with
                   | Some text => String.eqb text "true"
                   | None => false
                   end).
Proof.
  unfold genPreferenceAutoDeleteFinished, preference. cbn [fst Preference_value]. run.
  destruct (storage w !! _); reflexivity.
Qed.

Lemma genMarkLessonFinished_split course lesson w :
  genMarkLessonFinished course lesson w
  = match fst (genProgressForLesson course (Some lesson) w) with
    | Normal old =>
        delete_if_wanted course lesson
          (written course lesson
             (JSON_stringify
                (JSObject (set_prop "finished" (JSBool true) (own_props old))))
             w)
    | Throw e => (Throw e, record (GetItem (progress_key course lesson)) w)
    end.
Proof.
  unfold genMarkLessonFinished. unfold await at 1.
  rewrite genProgressForLesson_some. cbn [fst].
  destruct (match storage w !! progress_key course lesson with
            | None => _ | Some text => _ end) as [old | e]; [|reflexivity].
  unfold await at 1. cbn [Promise_all].
  unfold AsyncStorage.setItem, resolve. cbv beta iota zeta.
  unfold written, record, with_storage. cbn [storage downloads lessonIndices entropy calls].
  rewrite <- !app_assoc. reflexivity.
Qed.

(** The last statement settles, leaves the store alone, and deletes the
    download exactly when the preference is on and the lesson downloaded. *)
Lemma delete_if_wanted_run course lesson w :
  fst (delete_if_wanted course lesson w) = Normal tt
  /\ storage (snd (delete_if_wanted course lesson w)) = storage w
  /\ deletions (calls (snd (delete_if_wanted course lesson w)))
     = (deletions (calls w)
        ++ match fst (genPreferenceAutoDeleteFinished w),
                 fst (DownloadManager.genIsDownloaded course lesson w) with
           | Normal (JSBool true), Normal true => [(course, lesson)]
           | _, _ => []
           end)%list.
Proof.
  rewrite genPreferenceAutoDeleteFinished_value.
  unfold delete_if_wanted, genPreferenceAutoDeleteFinished, preference.
  cbn [fst Preference_value].
  change ("@preferences/" +:+ "auto-delete-finished")
    with "@preferences/auto-delete-finished".
  unfold is_true. run.
  destruct (storage w !! "@preferences/auto-delete-finished") as [text|];
    run; try destruct (String.eqb text "true"); cbn [ToBoolean]; run;
    try destruct (existsb (same_lesson course lesson) (downloads w));
    run; rewrite ?deletions_app; cbn [deletions]; rewrite ?app_nil_r;
    repeat split; reflexivity.
Qed.

(** The call completes exactly when the stored record decodes. *)
Lemma genMarkLessonFinished_completes course lesson w :
  fst (genMarkLessonFinished course lesson w) = Normal tt
  <-> exists old, fst (genProgressForLesson course (Some lesson) w) = Normal old.
Proof.
  rewrite genMarkLessonFinished_split.
  destruct (fst (genProgressForLesson course (Some lesson) w)) as [old | e].
  - split; [eauto |]. intros _.
    now destruct (delete_if_wanted_run course lesson
                    (written course lesson
                       (JSON_stringify
                          (JSObject (set_prop "finished" (JSBool true)
                                       (own_props old)))) w)) as [H _].
  - split; [discriminate | intros [old H]; discriminate].
Qed.

(** C6, as amended: a call of [genMarkLessonFinished(C, L)] that completes
    calls [DownloadManager.genDeleteDownload] exactly once, for [(C, L)],
    when the auto-delete-finished preference is enabled and
    [DownloadManager.genIsDownloaded(C, L)] is true; with the preference
    disabled no call is made, whether the call completes or not. *)
Theorem auto_delete_on_finish (course : Course) (lesson : number) (w : World) :
  (fst (genPreferenceAutoDeleteFinished w) = Normal (JSBool true) ->
   fst (DownloadManager.genIsDownloaded course lesson w) = Normal true ->
   fst (genMarkLessonFinished course lesson w) = Normal tt ->
   deletions (calls (snd (genMarkLessonFinished course lesson w)))
   = (deletions (calls w) ++ [(course, lesson)])%list)
  /\ (fst (genPreferenceAutoDeleteFinished w) = Normal (JSBool false) ->
      deletions (calls (snd (genMarkLessonFinished course lesson w)))
      = deletions (calls w)).
Proof.
  rewrite genMarkLessonFinished_split.
  destruct (fst (genProgressForLesson course (Some lesson) w)) as [old | e].
  - set (text := JSON_stringify _).
    destruct (delete_if_wanted_run course lesson (written course lesson text w))
      as (_ & _ & Hdel).
    rewrite Hdel.
    assert (Hpref : fst (genPreferenceAutoDeleteFinished (written course lesson text w))
                    = fst (genPreferenceAutoDeleteFinished w)).
    { rewrite !genPreferenceAutoDeleteFinished_value. unfold written.
      cbn [storage].
      now rewrite !lookup_insert_ne by (apply activity_key_not_preference). }
    rewrite Hpref.
    assert (Hcalls : deletions (calls (written course lesson text w))
                     = deletions (calls w)).
    { unfold written. cbn [calls]. rewrite deletions_app. cbn [deletions].
      apply app_nil_r. }
    rewrite Hcalls.
    change (fst (DownloadManager.genIsDownloaded course lesson
                   (written course lesson text w)))
      with (fst (DownloadManager.genIsDownloaded course lesson w)).
    split.
    + intros -> -> _. reflexivity.
    + intros ->. apply app_nil_r.
  - split.
    + intros _ _ Hdone. discriminate Hdone.
    + intros _. cbn [snd calls record]. rewrite deletions_app. cbn [deletions].
      apply app_nil_r.
Qed.

(** ** Reading a mutated record back *)

Lemma get_prop_set_prop k v props : get_prop k (set_prop k v props) = Some v.
Proof.
  induction props as [|[k' v'] props IH]; simpl.
  - now rewrite String.eqb_refl.
  - destruct (String.eqb k k') eqn:E; simpl; rewrite ?String.eqb_refl, ?E; trivial.
Qed.

Lemma get_prop_set_prop_ne k k' v props :
  k <> k' -> get_prop k' (set_prop k v props) = get_prop k' props.
Proof.
  intros Hne. induction props as [|[k0 v0] props IH]; simpl.
  - destruct (String.eqb_spec k' k); [congruence | reflexivity].
  - destruct (String.eqb_spec k k0) as [<- | Hk]; simpl.
    + destruct (String.eqb_spec k' k); [congruence | reflexivity].
    + now rewrite IH.
Qed.

Lemma keys_set_prop k v props :
  map fst (set_prop k v props)
  = if existsb (String.eqb k) (map fst props) then map fst props
    else (map fst props ++ [k])%list.
Proof.
  induction props as [|[k' v'] props IH]; simpl; [reflexivity |].
  destruct (String.eqb_spec k k') as [<- | Hk]; simpl; [reflexivity |].
  rewrite IH. now destruct (existsb _ _).
Qed.

Lemma json_ok_set_prop k v props :
  json_ok (JSObject props) = true -> json_ok v = true ->
  json_ok (JSObject (set_prop k v props)) = true.
Proof.
  cbn [json_ok]. intros [Hd Hv]%andb_true_iff Hok. apply andb_true_iff. split.
  - rewrite keys_set_prop. destruct (existsb _ _) eqn:E; [exact Hd |].
    apply distinct_NoDup. apply distinct_NoDup in Hd.
    apply NoDup_app. split; [exact Hd |]. split.
    + intros x Hx [-> | Hnil]%elem_of_cons; [| now apply elem_of_nil in Hnil].
      apply existsb_eqb_elem in Hx. congruence.
    + apply NoDup_singleton.
  - clear Hd. induction props as [|[k' v'] props IH]; simpl in *.
    + now rewrite Hok.
    + apply andb_true_iff in Hv as [Hv' Hv].
      destruct (String.eqb k k'); simpl; rewrite ?Hok, ?Hv', ?Hv; auto.
Qed.

Lemma read_written course lesson v w :
  number_wf lesson = true -> json_ok v = true ->
  fst (genProgressForLesson course (Some lesson)
         (written course lesson (JSON_stringify v) w))
  = Normal v.
Proof.
  intros Hwf Hok. rewrite genProgressForLesson_some. cbn [fst].
  unfold written. cbn [storage].
  rewrite lookup_insert_ne, lookup_insert_ne, lookup_insert_eq.
  - now apply JSON_parse_stringify.
  - intros H. symmetry in H. revert H. now apply progress_key_not_recent_lesson.
  - intros H. symmetry in H. revert H. apply progress_key_not_recent_course.
Qed.

(** ** What [JSON.parse] returns is a value JSON represents *)

Lemma span_digits_digits s ds r : span_digits s = (ds, r) -> all_digits ds = true.
Proof.
  revert ds r. induction s as [|c s IH]; simpl; intros ds r.
  - now intros [= <- _].
  - destruct (is_digit c) eqn:Hc.
    + destruct (span_digits s) as [ds' r']. intros [= <- _]. simpl.
      rewrite Hc. now apply (IH ds' r').
    + now intros [= <- _].
Qed.

Lemma strip_leading_zeros_digits s :
  all_digits s = true ->
  all_digits (snd (strip_leading_zeros s)) = true
  /\ match snd (strip_leading_zeros s) with
     | "" => True
     | String c _ => Ascii.eqb c "0" = false
     end.
Proof.
  induction s as [|c s IH]; simpl; [now split |].
  intros [Hc Hs]%andb_true_iff.
  destruct (Ascii.eqb c "0") eqn:E.
  - destruct (strip_leading_zeros s) as [z r]. now apply IH.
  - simpl. now rewrite Hc, Hs.
Qed.

Lemma strip_trailing_zeros_digits s :
  all_digits s = true -> all_digits (strip_trailing_zeros s) = true.
Proof.
  induction s as [|c s IH]; simpl; [trivial |].
  intros [Hc Hs]%andb_true_iff.
  destruct (Ascii.eqb c "0" && String.eqb (strip_trailing_zeros s) ""); simpl;
    [reflexivity | now rewrite Hc, IH].
Qed.

Lemma strip_trailing_zeros_last s :
  match last_char (strip_trailing_zeros s) with
  | Some c => Ascii.eqb c "0" = false
  | None => strip_trailing_zeros s = ""
  end.
Proof.
  induction s as [|c s IH]; simpl; [reflexivity |].
  destruct (Ascii.eqb c "0") eqn:E; simpl.
  - destruct (strip_trailing_zeros s) as [|d t] eqn:Ht; simpl; [reflexivity |].
    change (match t with "" => Some d | String _ _ => last_char t end)
      with (last_char (String d t)).
    destruct (last_char (String d t)); [exact IH | discriminate IH].
  - destruct (strip_trailing_zeros s) as [|d t] eqn:Ht; simpl; [exact E |].
    change (match t with "" => Some d | String _ _ => last_char t end)
      with (last_char (String d t)).
    destruct (last_char (String d t)); [exact IH | discriminate IH].
Qed.

(** ** Rounding to a double

    [to_double] is idempotent: what it returns is a double, and a double is
    the double nearest to itself.  Hence whatever [JSON.parse] and [parseInt]
    return is a Number. *)


Lemma uint_of_digits s :
  all_digits s = true ->
  exists u, NilEmpty.uint_of_string s = Some u
            /\ (forall acc, N.pos (Pos.of_uint_acc u acc) = digits_value (N.pos acc) s)
            /\ Pos.of_uint u = digits_value 0 s.
Proof.
  induction s as [|c s IH]; [intros _; exists Decimal.Nil; repeat split |].
  cbn [all_digits]. intros [Hc Hs]%andb_true_iff.
  destruct (IH Hs) as (u & Hu & Hacc & H0).
  apply digit_cases in Hc.
  destruct Hc as [-> | [-> | [-> | [-> | [-> | [-> | [-> | [-> | [-> | ->]]]]]]]]];
    cbn [NilEmpty.uint_of_string]; rewrite Hu; cbn [uint_of_char];
    eexists; (split; [reflexivity |]); split;
    try (intros acc; cbn [Pos.of_uint_acc]); try cbn [Pos.of_uint];
    cbn [digits_value]; rewrite ?Hacc, ?H0; f_equal;
    match goal with
    | |- context [(N_of_ascii ?c - 48)%N] =>
        let v := eval vm_compute in (N_of_ascii c - 48)%N in
        change (N_of_ascii c - 48)%N with v
    end; lia.
Qed.

Lemma N_of_dec_value s : all_digits s = true -> N_of_dec s = digits_value 0 s.
Proof.
  intros H. destruct s as [|c s]; [reflexivity |].
  destruct (uint_of_digits _ H) as (u & Hu & _ & H0).
  unfold N_of_dec, NilZero.uint_of_string. rewrite Hu. exact H0.
Qed.

Lemma digits_value_acc s : forall acc,
  digits_value acc s = (acc * 10 ^ N.of_nat (String.length s) + digits_value 0 s)%N.
Proof.
  induction s as [|c s IH]; intros acc.
  - cbn [digits_value String.length]. change (10 ^ N.of_nat 0)%N with 1%N. lia.
  - cbn [digits_value String.length]. rewrite IH, (IH (10 * 0 + _)%N).
    rewrite Nat2N.inj_succ, N.pow_succ_r'. lia.
Qed.

Lemma digits_value_append a b :
  digits_value 0 (a +:+ b)
  = (digits_value 0 a * 10 ^ N.of_nat (String.length b) + digits_value 0 b)%N.
Proof.
  generalize 0%N at 1 2. induction a as [|c a IH]; intros acc.
  - cbn [String.append digits_value]. apply digits_value_acc.
  - cbn [String.append digits_value]. apply IH.
Qed.

Lemma digits_value_zeros k : digits_value 0 (zeros k) = 0%N.
Proof. induction k as [|k IH]; [reflexivity | exact IH]. Qed.

Lemma digit_bound c : is_digit c = true -> (N_of_ascii c - 48 <= 9)%N.
Proof. intros H. digit_char H; vm_compute; discriminate. Qed.

Lemma digits_value_bound s :
  all_digits s = true -> (digits_value 0 s < 10 ^ N.of_nat (String.length s))%N.
Proof.
  induction s as [|c s IH]; [reflexivity |].
  cbn [all_digits]. intros [Hc Hs]%andb_true_iff.
  cbn [digits_value String.length]. rewrite digits_value_acc.
  rewrite Nat2N.inj_succ, N.pow_succ_r'.
  pose proof (digit_bound c Hc). pose proof (IH Hs). nia.
Qed.

Lemma strip_leading_zeros_spec s :
  s = zeros (fst (strip_leading_zeros s)) +:+ snd (strip_leading_zeros s).
Proof.
  induction s as [|c s IH]; [reflexivity |]. cbn [strip_leading_zeros].
  destruct (Ascii.eqb_spec c "0") as [-> | Hc]; [| reflexivity].
  destruct (strip_leading_zeros s) as [z r]. cbn [fst snd zeros String.append] in *.
  now rewrite <- IH.
Qed.

Lemma strip_trailing_zeros_spec s :
  exists t, s = strip_trailing_zeros s +:+ zeros t.
Proof.
  induction s as [|c s (t & IH)]; [now exists O |]. cbn [strip_trailing_zeros].
  destruct (Ascii.eqb_spec c "0") as [-> | Hc]; cbn [andb].
  - destruct (strip_trailing_zeros s) as [|d r]; cbn [String.eqb].
    + exists (S t). cbn [zeros String.append] in *. now rewrite IH at 1.
    + exists t. cbn [String.append] in *. now rewrite IH at 1.
  - exists t. cbn [String.append]. now rewrite IH at 1.
Qed.

(** The value of the digits [number_of_digits] keeps. *)
Lemma number_of_digits_value neg all point :
  all_digits all = true ->
  match number_of_digits neg all point with
  | Zero => N_of_dec all = 0%N
  | Finite neg' ds p =>
      neg' = neg /\ all_digits ds = true
      /\ exists t,
           (N_of_dec all = N_of_dec ds * 10 ^ N.of_nat t)%N
           /\ p - Z.of_nat (String.length ds)
              = point - Z.of_nat (String.length all) + Z.of_nat t
  | _ => False
  end.
Proof.
  intros Hall. unfold number_of_digits.
  pose proof (strip_leading_zeros_spec all) as Hlead.
  destruct (strip_leading_zeros_digits all Hall) as [Hd _].
  destruct (strip_leading_zeros all) as [z r]. cbn [fst snd] in *.
  assert (Hval : N_of_dec all = N_of_dec r).
  { rewrite !N_of_dec_value by trivial. rewrite Hlead at 1.
    rewrite digits_value_append, digits_value_zeros. lia. }
  destruct r as [|c r]; [exact Hval |].
  destruct (strip_trailing_zeros_spec (String c r)) as (t & Htrail).
  pose proof (strip_trailing_zeros_digits _ Hd) as Hd'.
  split; [reflexivity |]. split; [exact Hd' |]. exists t. split.
  - rewrite Hval, !N_of_dec_value by trivial. rewrite Htrail at 1.
    rewrite digits_value_append, digits_value_zeros, length_zeros. lia.
  - apply (f_equal String.length) in Hlead, Htrail.
    rewrite length_append, length_zeros in Hlead, Htrail. lia.
Qed.

Lemma round_half_even_bounds n d :
  n / d <= round_half_even n d <= n / d + 1.
Proof.
  unfold round_half_even, Z.div. destruct (Z.div_eucl n d) as [q r]. cbn [fst].
  destruct (2 * r ?= d); [destruct (Z.even q) | |]; lia.
Qed.

Lemma round_half_even_exact m d : 0 < d -> round_half_even (m * d) d = m.
Proof.
  intros Hd. unfold round_half_even.
  pose proof (Z.div_mul m d ltac:(lia)) as Hq.
  pose proof (Z.mod_mul m d ltac:(lia)) as Hr.
  unfold Z.div, Z.modulo in Hq, Hr.
  destruct (Z.div_eucl (m * d) d) as [q r]. cbn [fst snd] in Hq, Hr. subst q r.
  change (2 * 0) with 0. now apply Z.compare_lt_iff in Hd as ->.
Qed.

Lemma shift_bounds Q :
  0 <= Q ->
  let sh := Z.max 0 (Z.log2 Q - 52) in
  Q / 2 ^ sh < 2 ^ 53 /\ (0 < sh -> 2 ^ 52 <= Q / 2 ^ sh).
Proof.
  intros HQ sh.
  assert (Hsh : 0 <= sh) by (unfold sh; lia).
  assert (Hpow : 0 < 2 ^ sh) by (apply Z.pow_pos_nonneg; lia).
  destruct (Z.eq_dec Q 0) as [-> | Hne].
  { rewrite Z.div_0_l by lia. split; [reflexivity | ]. unfold sh. cbn. lia. }
  pose proof (Z.log2_spec Q ltac:(lia)) as [Hlo Hhi].
  pose proof (Z.log2_nonneg Q) as Hlog.
  split.
  - apply Z.div_lt_upper_bound; [exact Hpow |].
    rewrite <- Z.pow_add_r by lia.
    eapply Z.lt_le_trans; [exact Hhi |].
    apply Z.pow_le_mono_r; unfold sh; lia.
  - intros Hpos. apply Z.div_le_lower_bound; [exact Hpow |].
    rewrite <- Z.pow_add_r by lia.
    replace (sh + 52) with (Z.log2 Q) by (unfold sh in *; lia). exact Hlo.
Qed.

(** What [nearest_binary64] returns is a double. *)
Lemma nearest_binary64_wf n d m s :
  0 <= n -> 0 < d -> nearest_binary64 n d = B64_finite m s -> binary64_wf m s.
Proof.
  intros Hn Hd. unfold nearest_binary64.
  set (u := n * 2 ^ 1074). set (sh := Z.max 0 (Z.log2 (u / d) - 52)).
  assert (Hu : 0 <= u) by (apply Z.mul_nonneg_nonneg; [lia | apply Z.pow_nonneg; lia]).
  assert (HQ : 0 <= u / d) by (apply Z.div_pos; lia).
  assert (Hsh : 0 <= sh) by (unfold sh; lia).
  destruct (shift_bounds (u / d) HQ) as [Hhi Hlo]. fold sh in Hhi, Hlo.
  rewrite Z.div_div in Hhi, Hlo by (try lia; apply Z.pow_pos_nonneg; lia).
  pose proof (round_half_even_bounds u (d * 2 ^ sh)) as Hr.
  set (m0 := round_half_even u (d * 2 ^ sh)) in *.
  destruct (Z.eqb_spec m0 (2 ^ 53)) as [E | E].
  - change (2 ^ 52 =? 0) with false. cbv iota.
    destruct (Z.ltb_spec 2045 (sh + 1)); [discriminate |].
    intros [= <- <-]. unfold binary64_wf. change (2 ^ 52) with 4503599627370496.
    change (2 ^ 53) with 9007199254740992. lia.
  - destruct (Z.eqb_spec m0 0); [discriminate |].
    destruct (Z.ltb_spec 2045 sh); [discriminate |].
    intros [= <- <-]. unfold binary64_wf.
    assert (0 <= u / (d * 2 ^ sh)).
    { apply Z.div_pos; [lia |]. apply Z.mul_pos_pos; [lia |].
      apply Z.pow_pos_nonneg; lia. }
    split; [lia |]. split; [lia |].
    destruct (Z.eq_dec sh 0); [now left | right]. lia.
Qed.

(** A double is the nearest double to itself. *)
Lemma nearest_binary64_exact n d m s :
  binary64_wf m s -> 0 < d -> n * 2 ^ 1074 = m * 2 ^ s * d ->
  nearest_binary64 n d = B64_finite m s.
Proof.
  intros (Hm & Hs & Hnorm) Hd Heq. unfold nearest_binary64. rewrite Heq.
  rewrite Z.div_mul by lia.
  rewrite Z.log2_mul_pow2 by lia.
  assert (Hsh : Z.max 0 (s + Z.log2 m - 52) = s).
  { destruct Hnorm as [-> | Hnorm].
    - assert (Z.log2 m < 53) by (apply Z.log2_lt_pow2; lia). lia.
    - rewrite (Z.log2_unique m 52); [lia | lia |]. change (2 ^ Z.succ 52) with (2 ^ 53).
      split; lia. }
  rewrite Hsh.
  replace (m * 2 ^ s * d) with (m * (d * 2 ^ s)) by ring.
  rewrite round_half_even_exact
    by (apply Z.mul_pos_pos; [lia | apply Z.pow_pos_nonneg; lia]).
  destruct (Z.eqb_spec m (2 ^ 53)); [lia |].
  destruct (Z.eqb_spec m 0); [lia |].
  destruct (Z.ltb_spec 2045 s); [lia | reflexivity].
Qed.

Lemma number_of_digits_normal_digits neg all point :
  all_digits all = true ->
  match number_of_digits neg all point with
  | Finite _ ds _ => normal_digits ds = true
  | _ => True
  end.
Proof.
  intros Hall. unfold number_of_digits.
  destruct (strip_leading_zeros_digits all Hall) as [Hd Hfirst].
  destruct (strip_leading_zeros all) as [z r]. cbn [snd] in Hd, Hfirst.
  destruct r as [|c r]; [exact I |].
  pose proof (strip_trailing_zeros_digits _ Hd) as Hd'.
  pose proof (strip_trailing_zeros_last (String c r)) as Hlast.
  unfold normal_digits. rewrite Hd'.
  cbn [strip_trailing_zeros] in Hlast |- *. rewrite Hfirst in Hlast |- *.
  cbn [andb] in Hlast |- *. cbn [first_char]. rewrite Hfirst.
  destruct (last_char _) as [c'|]; [now rewrite Hlast | discriminate].
Qed.

Lemma normal_digits_all s : normal_digits s = true -> all_digits s = true.
Proof. unfold normal_digits. now intros [[H _]%andb_true_iff _]%andb_true_iff. Qed.

Lemma binary64_eqb_eq a b : binary64_eqb a b = true -> a = b.
Proof.
  destruct a, b; try discriminate; try reflexivity. cbn [binary64_eqb].
  intros [H1%Z.eqb_eq H2%Z.eqb_eq]%andb_true_iff. now subst.
Qed.

Lemma binary64_of_decimal_wf ds p m s :
  binary64_of_decimal ds p = B64_finite m s -> binary64_wf m s.
Proof.
  unfold binary64_of_decimal.
  destruct (_ =? 0); [discriminate |].
  destruct (309 <=? _); [discriminate |].
  destruct (p <=? -324); [discriminate |].
  destruct (0 <=? _) eqn:Hq.
  - apply nearest_binary64_wf; [| lia].
    apply Z.mul_nonneg_nonneg; [lia | apply Z.pow_nonneg; lia].
  - apply nearest_binary64_wf; [lia |].
    apply Z.leb_gt in Hq. apply Z.pow_pos_nonneg; lia.
Qed.

Lemma scale_up (D' T E A B m P : Z) :
  0 < B -> T = E * (A * B) -> D' * T = m * P * B -> D' * E * A = m * P * 1.
Proof.
  intros HB -> H. apply (Z.mul_cancel_r _ _ B); [lia |].
  replace (D' * E * A * B) with (D' * (E * (A * B))) by ring. rewrite H. ring.
Qed.

Lemma scale_down (D' T E A B m P : Z) :
  0 < B -> 0 < T -> E * T = A * B -> D' * T = m * P * B -> D' * A = m * P * E.
Proof.
  intros HB HT HE H. apply (Z.mul_cancel_r _ _ (B * T)); [nia |].
  replace (D' * A * (B * T)) with (D' * T * (A * B)) by ring.
  rewrite H, <- HE. ring.
Qed.

Lemma product_bounds (m P B lo hi c1 c2 : Z) :
  0 < m < c1 -> 0 < P <= c2 -> lo <= B -> 0 < B -> c1 * c2 * B < hi ->
  lo <= m * P * B < hi.
Proof.
  intros Hm HP Hlo HB Hhi.
  assert (H1 : 1 <= m * P) by nia.
  assert (H2 : m * P <= c1 * c2) by nia.
  assert (H3 : B <= m * P * B) by nia.
  assert (H4 : m * P * B <= c1 * c2 * B) by (apply Z.mul_le_mono_nonneg_r; lia).
  lia.
Qed.

(** The exact decimal expansion of a double reads as that double. *)
Lemma exact_decimal_reads neg m s :
  binary64_wf m s ->
  exists ds p,
    exact_decimal neg m s = Finite neg ds p
    /\ normal_digits ds = true
    /\ binary64_of_decimal ds p = B64_finite m s.
Proof.
  intros Hwf. pose proof Hwf as (Hm & Hs & _). unfold exact_decimal.
  assert (HB : 0 < 5 ^ 1074) by (apply Z.pow_pos_nonneg; lia).
  assert (HD : 10 ^ 750 <= m * 2 ^ s * 5 ^ 1074 < 10 ^ 1383).
  { apply (product_bounds _ _ _ _ _ (2 ^ 53) (2 ^ 2045)).
    - exact Hm.
    - split; [apply Z.pow_pos_nonneg | apply Z.pow_le_mono_r]; lia.
    - apply Z.leb_le; vm_compute; reflexivity.
    - exact HB.
    - apply Z.ltb_lt; vm_compute; reflexivity. }
  set (D := m * 2 ^ s * 5 ^ 1074) in *.
  assert (HDpos : 0 < D).
  { eapply Z.lt_le_trans; [| exact (proj1 HD)]. apply Z.pow_pos_nonneg; lia. }
  set (ds0 := dec_of_N (Z.to_N D)).
  pose proof (number_of_digits_value neg ds0
                (Z.of_nat (String.length ds0) - 1074) (dec_of_N_digits _)) as Hval.
  pose proof (number_of_digits_normal_digits neg ds0
                (Z.of_nat (String.length ds0) - 1074) (dec_of_N_digits _)) as Hnorm.
  assert (Hds0 : N_of_dec ds0 = Z.to_N D) by apply N_of_dec_of_N.
  rewrite Hds0 in Hval.
  destruct (number_of_digits neg ds0 _) as [| | | neg' ds p]; try contradiction.
  { clear - Hval HDpos. lia. }
  destruct Hval as (-> & Hd & t & Hv & Hq).
  exists ds, p. split; [reflexivity |]. split; [exact Hnorm |].
  apply (f_equal Z.of_N) in Hv.
  rewrite Z2N.id, N2Z.inj_mul, N2Z.inj_pow in Hv by (clear - HDpos; lia).
  rewrite nat_N_Z in Hv. change (Z.of_N 10) with 10 in Hv.
  set (D' := Z.of_N (N_of_dec ds)) in *.
  assert (Ht : 0 < 10 ^ Z.of_nat t) by (apply Z.pow_pos_nonneg; lia).
  assert (HD' : 0 < D').
  { assert (0 <= D') by apply N2Z.is_nonneg. clear - H Hv HDpos Ht. nia. }
  assert (Hbound : D' < 10 ^ Z.of_nat (String.length ds)).
  { pose proof (digits_value_bound ds Hd) as Hb. rewrite <- N_of_dec_value in Hb by trivial.
    apply N2Z.inj_lt in Hb. rewrite N2Z.inj_pow, nat_N_Z in Hb. exact Hb. }
  assert (Htlt : Z.of_nat t < 1383).
  { apply (Z.pow_lt_mono_r_iff 10); [lia | lia |].
    eapply Z.le_lt_trans; [| exact (proj2 HD)]. rewrite Hv.
    rewrite <- (Z.mul_1_l (10 ^ Z.of_nat t)) at 1.
    apply Z.mul_le_mono_nonneg_r; clear - HD' Ht; lia. }
  assert (Hlen : 750 < Z.of_nat (String.length ds) + Z.of_nat t).
  { apply (Z.pow_lt_mono_r_iff 10); [lia | lia |].
    eapply Z.le_lt_trans; [exact (proj1 HD) |]. rewrite Hv, Z.pow_add_r by lia.
    apply Z.mul_lt_mono_pos_r; trivial. }
  clear HD Hbound.
  unfold binary64_of_decimal. fold D'.
  replace (p - Z.of_nat (String.length ds)) with (Z.of_nat t - 1074) by (clear - Hq; lia).
  destruct (Z.eqb_spec D' 0) as [E0 | _]; [clear - HD' E0; lia |].
  destruct (Z.leb_spec 309 (Z.of_nat t - 1074)) as [E1 | _]; [clear - Htlt E1; lia |].
  destruct (Z.leb_spec p (-324)) as [E2 | _]; [clear - Hlen Hq E2; lia |].
  assert (H10 : 10 ^ 1074 = 2 ^ 1074 * 5 ^ 1074) by (now rewrite <- Z.pow_mul_l).
  destruct (Z.leb_spec 0 (Z.of_nat t - 1074)) as [Hge | Hlt].
  - apply nearest_binary64_exact; [exact Hwf | reflexivity |].
    apply (scale_up _ (10 ^ Z.of_nat t) _ _ (5 ^ 1074)).
    + exact HB.
    + rewrite <- H10, <- Z.pow_add_r by (clear - Hge; lia). f_equal. clear; lia.
    + symmetry. exact Hv.
  - apply nearest_binary64_exact;
      [exact Hwf | apply Z.pow_pos_nonneg; clear - Hlt; lia |].
    apply (scale_down _ (10 ^ Z.of_nat t) _ _ (5 ^ 1074)).
    + exact HB.
    + exact Ht.
    + rewrite <- H10, <- Z.pow_add_r by (clear - Hlt; lia). f_equal. clear; lia.
    + symmetry. exact Hv.
Qed.

Lemma first_reading_some neg m s n ks x :
  first_reading neg m s n ks = Some x ->
  reads_as m s x = true /\ exists k, In x (decimals_near neg m s n k).
Proof.
  induction ks as [|k ks IH]; [discriminate |]. cbn [first_reading].
  destruct (find _ _) as [y|] eqn:E; [| exact IH].
  intros [= <-]. apply find_some in E as [Hin Hreads]. eauto.
Qed.

Lemma decimals_near_digits neg m s n k x :
  In x (decimals_near neg m s n k) ->
  exists all point, all_digits all = true /\ x = number_of_digits neg all point.
Proof.
  unfold decimals_near. destruct (if k <=? n then _ else _) as [a b].
  cbn [map In].
  intros [<- | [<- | []]]; eexists _, _; (split; [apply dec_of_N_digits | reflexivity]).
Qed.

(** The decimal chosen for a double reads as that double. *)
Lemma shortest_decimal_reads neg m s :
  binary64_wf m s ->
  exists ds p,
    shortest_decimal neg m s = Finite neg ds p
    /\ normal_digits ds = true
    /\ binary64_of_decimal ds p = B64_finite m s.
Proof.
  intros Hwf. unfold shortest_decimal.
  destruct (first_reading _ _ _ _ _) as [x|] eqn:E;
    [| now apply exact_decimal_reads].
  apply first_reading_some in E as (Hreads & k & Hin).
  apply decimals_near_digits in Hin as (all & point & Hall & ->).
  pose proof (number_of_digits_value neg all point Hall) as Hval.
  pose proof (number_of_digits_normal_digits neg all point Hall) as Hnorm.
  destruct (number_of_digits neg all point) as [| | | neg' ds p]; try discriminate.
  destruct Hval as (-> & _). exists ds, p. split; [reflexivity |].
  split; [exact Hnorm |]. now apply binary64_eqb_eq in Hreads.
Qed.

(** Rounding to a double is idempotent: a double rounds to itself. *)
Lemma to_double_idempotent x : to_double (to_double x) = to_double x.
Proof.
  destruct x as [| | | neg ds p]; try reflexivity. unfold to_double.
  destruct (binary64_of_decimal ds p) as [|m s|] eqn:E; try reflexivity.
  destruct (shortest_decimal_reads neg m s (binary64_of_decimal_wf _ _ _ _ E))
    as (ds' & p' & Hs & _ & Hr).
  rewrite Hs. now rewrite Hr.
Qed.

Lemma number_wf_to_double x : number_wf (to_double x) = true.
Proof.
  pose proof (to_double_idempotent x) as Hid.
  destruct x as [| | | neg ds p]; try reflexivity.
  assert (Hx : to_double (Finite neg ds p)
               = match binary64_of_decimal ds p with
                 | B64_zero => Zero
                 | B64_infinity => Infinity neg
                 | B64_finite m s => shortest_decimal neg m s
                 end) by reflexivity.
  destruct (binary64_of_decimal ds p) as [|m s|] eqn:E;
    rewrite Hx in Hid |- *; try reflexivity.
  destruct (shortest_decimal_reads neg m s (binary64_of_decimal_wf _ _ _ _ E))
    as (ds' & p' & Hs & Hnorm & _).
  rewrite Hs in Hid |- *. unfold number_wf. rewrite Hnorm, Hid.
  now apply number_eqb_eq.
Qed.

Lemma parse_fraction_digits_only s fp r :
  parse_fraction s = Some (fp, r) -> all_digits fp = true.
Proof.
  unfold parse_fraction. destruct (starts_with "." s) as [t|].
  - destruct (span_digits t) as [ds r'] eqn:E.
    destruct (String.eqb ds ""); [discriminate |].
    intros [= <- _]. now apply span_digits_digits in E.
  - now intros [= <- _].
Qed.

Lemma parse_unsigned_ok neg s x r :
  parse_unsigned neg s = Some (x, r) -> number_wf x = true.
Proof.
  unfold parse_unsigned. destruct (span_digits s) as [ip s2] eqn:E.
  destruct (String.eqb ip ""); [discriminate |].
  destruct (_ && _); [discriminate |].
  destruct (parse_fraction s2) as [[fp s3]|] eqn:F; [| discriminate].
  cbn. destruct (parse_exponent s3) as [[e s4]|]; [| discriminate].
  cbn. intros [= <- _]. apply number_wf_to_double.
Qed.

Lemma parse_number_ok s x r :
  parse_number s = Some (x, r) -> number_wf x = true.
Proof.
  unfold parse_number. destruct (starts_with "-" s); apply parse_unsigned_ok.
Qed.

Lemma well_formed_set_prop k v props :
  well_formed (JSObject props) = true -> well_formed v = true ->
  well_formed (JSObject (set_prop k v props)) = true.
Proof.
  cbn [well_formed]. intros [Hd Hv]%andb_true_iff Hok. apply andb_true_iff. split.
  - rewrite keys_set_prop. destruct (existsb _ _) eqn:E; [exact Hd |].
    apply distinct_NoDup. apply distinct_NoDup in Hd.
    apply NoDup_app. split; [exact Hd |]. split.
    + intros x Hx [-> | Hnil]%elem_of_cons; [| now apply elem_of_nil in Hnil].
      apply existsb_eqb_elem in Hx. congruence.
    + apply NoDup_singleton.
  - clear Hd. induction props as [|[k' v'] props IH]; simpl in *.
    + now rewrite Hok.
    + apply andb_true_iff in Hv as [Hv' Hv].
      destruct (String.eqb k k'); simpl; rewrite ?Hok, ?Hv', ?Hv; auto.
Qed.

Lemma build_object_ok members :
  forallb (fun kv => well_formed (snd kv)) members = true ->
  well_formed (build_object members) = true.
Proof.
  unfold build_object.
  assert (H : forall acc, well_formed (JSObject acc) = true ->
                forallb (fun kv => well_formed (snd kv)) members = true ->
                well_formed (JSObject (fold_left (fun o kv => set_prop (fst kv) (snd kv) o)
                                     members acc)) = true).
  { induction members as [|[k v] members IH]; intros acc Hacc Hm; [exact Hacc |].
    cbn [forallb snd] in Hm. apply andb_true_iff in Hm as [Hv Hm].
    cbn [fold_left fst snd]. apply IH; [| exact Hm].
    now apply well_formed_set_prop. }
  now apply H.
Qed.

Lemma parse_ok f :
  (forall s v r, parse_value f s = Some (v, r) -> well_formed v = true)
  /\ (forall s vs r, parse_elements f s = Some (vs, r) -> forallb well_formed vs = true)
  /\ (forall s kvs r,
        parse_members f s = Some (kvs, r) ->
        forallb (fun kv => well_formed (snd kv)) kvs = true).
Proof.
  induction f as [|f (IHv & IHe & IHm)]; [repeat split; discriminate |].
  repeat split.
  - intros s v r H. cbn [parse_value] in H.
    destruct (skip_ws s) as [|c t]; [discriminate |].
    destruct (Ascii.eqb c "[").
    { destruct (starts_with "]" (skip_ws t)); [now injection H as <- _ |].
      destruct (parse_value f t) as [[v1 r1]|] eqn:E1; [| discriminate].
      cbn in H.
      destruct (parse_elements f r1) as [[vs r2]|] eqn:E2; [| discriminate].
      cbn in H. injection H as <- _. cbn [well_formed forallb].
      now rewrite (IHv _ _ _ E1), (IHe _ _ _ E2). }
    destruct (Ascii.eqb c "{").
    { destruct (starts_with "}" (skip_ws t)); [now injection H as <- _ |].
      destruct (parse_key t) as [[k r1]|]; [| discriminate]. cbn in H.
      destruct (parse_value f r1) as [[v1 r2]|] eqn:E1; [| discriminate].
      cbn in H.
      destruct (parse_members f r2) as [[kvs r3]|] eqn:E2; [| discriminate].
      cbn in H. injection H as <- _. apply build_object_ok.
      cbn [forallb snd]. now rewrite (IHv _ _ _ E1), (IHm _ _ _ E2). }
    destruct (Ascii.eqb c dquote).
    { destruct (parse_string_chars t) as [[str r']|]; [| discriminate].
      cbn in H. now injection H as <- _. }
    destruct (Ascii.eqb c "n").
    { destruct (strip_prefix "ull" t); [| discriminate].
      cbn in H. now injection H as <- _. }
    destruct (Ascii.eqb c "t").
    { destruct (strip_prefix "rue" t); [| discriminate].
      cbn in H. now injection H as <- _. }
    destruct (Ascii.eqb c "f").
    { destruct (strip_prefix "alse" t); [| discriminate].
      cbn in H. now injection H as <- _. }
    destruct (parse_number (String c t)) as [[x r']|] eqn:E; [| discriminate].
    cbn in H. injection H as <- _. cbn [well_formed].
    now apply parse_number_ok in E.
  - intros s vs r H. cbn [parse_elements] in H.
    destruct (skip_ws s) as [|c t]; [discriminate |].
    destruct (Ascii.eqb c "]"); [now injection H as <- _ |].
    destruct (Ascii.eqb c ","); [| discriminate].
    destruct (parse_value f t) as [[v1 r1]|] eqn:E1; [| discriminate].
    cbn in H.
    destruct (parse_elements f r1) as [[vs' r2]|] eqn:E2; [| discriminate].
    cbn in H. injection H as <- _. cbn [forallb].
    now rewrite (IHv _ _ _ E1), (IHe _ _ _ E2).
  - intros s kvs r H. cbn [parse_members] in H.
    destruct (skip_ws s) as [|c t]; [discriminate |].
    destruct (Ascii.eqb c "}"); [now injection H as <- _ |].
    destruct (Ascii.eqb c ","); [| discriminate].
    destruct (parse_key t) as [[k r1]|]; [| discriminate]. cbn in H.
    destruct (parse_value f r1) as [[v1 r2]|] eqn:E1; [| discriminate].
    cbn in H.
    destruct (parse_members f r2) as [[kvs' r3]|] eqn:E2; [| discriminate].
    cbn in H. injection H as <- _. cbn [forallb snd].
    now rewrite (IHv _ _ _ E1), (IHm _ _ _ E2).
Qed.

Lemma forallb_and {A : Type} (f g : A -> bool) (l : list A) :
  forallb (fun a => f a && g a) l = forallb f l && forallb g l.
Proof.
  induction l as [|a l IH]; [reflexivity |]. cbn [forallb]. rewrite IH.
  destruct (f a), (g a), (forallb f l); reflexivity.
Qed.

Lemma forallb_Forall_ext {A : Type} (f g : A -> bool) (l : list A) :
  Forall (fun a => f a = g a) l -> forallb f l = forallb g l.
Proof. induction 1 as [|a l Ha _ IH]; [reflexivity |]. cbn. now rewrite Ha, IH. Qed.

(** JSON represents the values of JavaScript in which every number is
    finite. *)
Lemma json_ok_split v : json_ok v = well_formed v && all_finite v.
Proof.
  induction v as [ | b | x | s | items IH | props IH] using JSValue_nested_ind;
    try reflexivity.
  - cbn [json_ok well_formed all_finite].
    rewrite <- forallb_and. now apply forallb_Forall_ext.
  - cbn [json_ok well_formed all_finite].
    rewrite <- andb_assoc. f_equal.
    rewrite <- forallb_and. now apply forallb_Forall_ext.
Qed.

(** What [JSON.parse] returns is a value of JavaScript. *)
Lemma JSON_parse_well_formed text v :
  JSON_parse text = Normal v -> well_formed v = true.
Proof.
  unfold JSON_parse.
  destruct (parse_value _ text) as [[v' rest]|] eqn:E; [| discriminate].
  destruct (skip_ws rest); [| discriminate].
  intros [= <-]. now apply (proj1 (parse_ok _)) in E.
Qed.

(** What [JSON.parse] returns, [JSON.stringify] and [JSON.parse] carry
    unchanged, unless a number in it is infinite: the one value
    [JSON.parse] returns and [JSON.stringify] does not write. *)
Lemma JSON_parse_ok text v :
  JSON_parse text = Normal v -> all_finite v = true -> json_ok v = true.
Proof.
  intros Hparse Hfin. rewrite json_ok_split, Hfin.
  now rewrite (JSON_parse_well_formed _ _ Hparse).
Qed.

(** ** The fuel of [JSON_parse] never runs out *)

Lemma skip_ws_length s : (String.length (skip_ws s) <= String.length s)%nat.
Proof.
  induction s as [|c s IH]; simpl; [lia |].
  destruct (is_json_ws c); simpl; lia.
Qed.

Lemma starts_with_length c s r :
  starts_with c s = Some r -> String.length s = S (String.length r).
Proof.
  destruct s as [|x s]; simpl; [discriminate |].
  destruct (Ascii.eqb c x); [now intros [= ->] | discriminate].
Qed.

Lemma strip_prefix_length p s r :
  strip_prefix p s = Some r -> (String.length r <= String.length s)%nat.
Proof.
  revert s. induction p as [|a p IH]; intros [|b s]; simpl; try discriminate.
  - now intros [= <-].
  - now intros [= <-].
  - destruct (Ascii.eqb a b); [| discriminate]. intros H%IH. lia.
Qed.

Lemma prepend_some p o str r :
  prepend p o = Some (str, r) -> exists t, o = Some (t, r).
Proof.
  destruct o as [[t r']|]; simpl; [| discriminate]. intros [= _ <-]. eauto.
Qed.

Lemma parse_string_chars_length n :
  forall s str r,
    (String.length s <= n)%nat -> parse_string_chars s = Some (str, r) ->
    (String.length r < String.length s)%nat.
Proof.
  induction n as [|n IH]; intros [|c s1] str r Hn; simpl in *;
    try discriminate; try lia.
  destruct (Ascii.eqb c dquote); [intros [= _ ->]; lia |].
  destruct (Ascii.eqb c "\").
  - destruct s1 as [|e s2]; [discriminate |].
    destruct (unescape e).
    + intros (t & H)%prepend_some. apply IH in H; simpl in *; lia.
    + destruct (Ascii.eqb e "u"); [| discriminate].
      destruct s2 as [|h1 [|h2 [|h3 [|h4 s3]]]]; try discriminate.
      destruct (hex_value h1), (hex_value h2), (hex_value h3), (hex_value h4);
        try discriminate.
      intros (t & H)%prepend_some. apply IH in H; simpl in *; lia.
  - destruct (N_of_ascii c <? 32)%N; [discriminate |].
    intros (t & H)%prepend_some. apply IH in H; lia.
Qed.

Lemma span_digits_length s ds r :
  span_digits s = (ds, r) ->
  String.length s = (String.length ds + String.length r)%nat.
Proof.
  revert ds r. induction s as [|c s IH]; simpl; intros ds r.
  - now intros [= <- <-].
  - destruct (is_digit c).
    + destruct (span_digits s) as [ds' r']. intros [= <- <-]. simpl.
      now rewrite (IH ds' r').
    + now intros [= <- <-].
Qed.

Lemma parse_fraction_length s fp r :
  parse_fraction s = Some (fp, r) -> (String.length r <= String.length s)%nat.
Proof.
  unfold parse_fraction. destruct (starts_with "." s) as [t|] eqn:E.
  - apply starts_with_length in E.
    destruct (span_digits t) as [ds r'] eqn:Es. apply span_digits_length in Es.
    destruct (String.eqb ds ""); [discriminate |]. intros [= _ <-]. lia.
  - now intros [= _ <-].
Qed.

Lemma parse_exponent_length s e r :
  parse_exponent s = Some (e, r) -> (String.length r <= String.length s)%nat.
Proof.
  unfold parse_exponent. destruct s as [|c t]; [now intros [= _ <-] |].
  destruct (Ascii.eqb c "e" || Ascii.eqb c "E"); [| now intros [= _ <-]].
  destruct t as [|g t']; simpl.
  - discriminate.
  - destruct (Ascii.eqb g "-"); [| destruct (Ascii.eqb g "+")];
      destruct (span_digits _) as [ed r0] eqn:Es;
      apply span_digits_length in Es;
      (destruct (String.eqb ed ""); [discriminate |]);
      intros [= _ <-]; simpl in *; lia.
Qed.

Lemma parse_unsigned_length neg s x r :
  parse_unsigned neg s = Some (x, r) -> (String.length r < String.length s)%nat.
Proof.
  unfold parse_unsigned. destruct (span_digits s) as [ip s2] eqn:E.
  apply span_digits_length in E.
  destruct ip as [|d ip]; [discriminate |]. rewrite eqb_empty_false.
  destruct (_ && _); [discriminate |].
  destruct (parse_fraction s2) as [[fp s3]|] eqn:F; [| discriminate].
  apply parse_fraction_length in F. cbn.
  destruct (parse_exponent s3) as [[e s4]|] eqn:X; [| discriminate].
  apply parse_exponent_length in X. cbn. intros [= _ <-]. simpl in E. lia.
Qed.

Lemma parse_number_length s x r :
  parse_number s = Some (x, r) -> (String.length r < String.length s)%nat.
Proof.
  unfold parse_number. destruct (starts_with "-" s) as [t|] eqn:E.
  - apply starts_with_length in E. intros H%parse_unsigned_length. lia.
  - apply parse_unsigned_length.
Qed.

Lemma parse_key_length s k r :
  parse_key s = Some (k, r) -> (String.length r < String.length s)%nat.
Proof.
  unfold parse_key. pose proof (skip_ws_length s) as Hs.
  destruct (starts_with dquote (skip_ws s)) as [t|] eqn:E; [| discriminate].
  apply starts_with_length in E. cbn.
  destruct (parse_string_chars t) as [[k' r1]|] eqn:P; [| discriminate].
  apply (parse_string_chars_length _ _ _ _ (le_n _)) in P. cbn.
  pose proof (skip_ws_length r1) as Hr.
  destruct (starts_with ":" (skip_ws r1)) as [r2|] eqn:C; [| discriminate].
  apply starts_with_length in C. cbn. intros [= _ <-]. lia.
Qed.

Lemma parse_consumes f :
  (forall s v r, parse_value f s = Some (v, r) ->
                 (String.length r < String.length s)%nat)
  /\ (forall s vs r, parse_elements f s = Some (vs, r) ->
                     (String.length r < String.length s)%nat)
  /\ (forall s kvs r, parse_members f s = Some (kvs, r) ->
                      (String.length r < String.length s)%nat).
Proof.
  induction f as [|f (IHv & IHe & IHm)]; [repeat split; discriminate |].
  repeat split.
  - intros s v r H. cbn [parse_value] in H. pose proof (skip_ws_length s) as Hs.
    destruct (skip_ws s) as [|c t]; [discriminate |]. simpl in Hs.
    destruct (Ascii.eqb c "[").
    { pose proof (skip_ws_length t) as Ht.
      destruct (starts_with "]" (skip_ws t)) as [r0|] eqn:E.
      - apply starts_with_length in E. injection H as _ <-. lia.
      - destruct (parse_value f t) as [[v1 r1]|] eqn:E1; [| discriminate].
        cbn in H.
        destruct (parse_elements f r1) as [[vs r2]|] eqn:E2; [| discriminate].
        cbn in H. injection H as _ <-. apply IHv in E1. apply IHe in E2. lia. }
    destruct (Ascii.eqb c "{").
    { pose proof (skip_ws_length t) as Ht.
      destruct (starts_with "}" (skip_ws t)) as [r0|] eqn:E.
      - apply starts_with_length in E. injection H as _ <-. lia.
      - destruct (parse_key t) as [[k r1]|] eqn:K; [| discriminate]. cbn in H.
        destruct (parse_value f r1) as [[v1 r2]|] eqn:E1; [| discriminate].
        cbn in H.
        destruct (parse_members f r2) as [[kvs r3]|] eqn:E2; [| discriminate].
        cbn in H. injection H as _ <-.
        apply parse_key_length in K. apply IHv in E1. apply IHm in E2. lia. }
    destruct (Ascii.eqb c dquote).
    { destruct (parse_string_chars t) as [[str r']|] eqn:P; [| discriminate].
      cbn in H. injection H as _ <-.
      apply (parse_string_chars_length _ _ _ _ (le_n _)) in P. lia. }
    destruct (Ascii.eqb c "n").
    { destruct (strip_prefix "ull" t) as [r'|] eqn:P; [| discriminate].
      cbn in H. injection H as _ <-. apply strip_prefix_length in P. lia. }
    destruct (Ascii.eqb c "t").
    { destruct (strip_prefix "rue" t) as [r'|] eqn:P; [| discriminate].
      cbn in H. injection H as _ <-. apply strip_prefix_length in P. lia. }
    destruct (Ascii.eqb c "f").
    { destruct (strip_prefix "alse" t) as [r'|] eqn:P; [| discriminate].
      cbn in H. injection H as _ <-. apply strip_prefix_length in P. lia. }
    destruct (parse_number (String c t)) as [[x r']|] eqn:E; [| discriminate].
    cbn in H. injection H as _ <-. apply parse_number_length in E. simpl in E. lia.
  - intros s vs r H. cbn [parse_elements] in H. pose proof (skip_ws_length s) as Hs.
    destruct (skip_ws s) as [|c t]; [discriminate |]. simpl in Hs.
    destruct (Ascii.eqb c "]"); [injection H as _ <-; lia |].
    destruct (Ascii.eqb c ","); [| discriminate].
    destruct (parse_value f t) as [[v1 r1]|] eqn:E1; [| discriminate].
    cbn in H.
    destruct (parse_elements f r1) as [[vs' r2]|] eqn:E2; [| discriminate].
    cbn in H. injection H as _ <-. apply IHv in E1. apply IHe in E2. lia.
  - intros s kvs r H. cbn [parse_members] in H. pose proof (skip_ws_length s) as Hs.
    destruct (skip_ws s) as [|c t]; [discriminate |]. simpl in Hs.
    destruct (Ascii.eqb c "}"); [injection H as _ <-; lia |].
    destruct (Ascii.eqb c ","); [| discriminate].
    destruct (parse_key t) as [[k r1]|] eqn:K; [| discriminate]. cbn in H.
    destruct (parse_value f r1) as [[v1 r2]|] eqn:E1; [| discriminate].
    cbn in H.
    destruct (parse_members f r2) as [[kvs' r3]|] eqn:E2; [| discriminate].
    cbn in H. injection H as _ <-.
    apply parse_key_length in K. apply IHv in E1. apply IHm in E2. lia.
Qed.

Lemma parse_fuel f : forall f',
  (forall s, (String.length s < f)%nat -> (String.length s < f')%nat ->
             parse_value f s = parse_value f' s)
  /\ (forall s, (String.length s < f)%nat -> (String.length s < f')%nat ->
                parse_elements f s = parse_elements f' s)
  /\ (forall s, (String.length s < f)%nat -> (String.length s < f')%nat ->
                parse_members f s = parse_members f' s).
Proof.
  induction f as [|f IH]; intros f'; [repeat split; intros; lia |].
  destruct f' as [|f']; [repeat split; intros; lia |].
  destruct (IH f') as (IHv & IHe & IHm).
  destruct (parse_consumes f) as (Cv & _ & _).
  repeat split; intros s Hf Hf'; pose proof (skip_ws_length s) as Hs.
  - cbn [parse_value].
    destruct (skip_ws s) as [|c t]; [reflexivity |]. simpl in Hs.
    destruct (Ascii.eqb c "[").
    { destruct (starts_with "]" (skip_ws t)); [reflexivity |].
      rewrite <- (IHv t) by lia.
      destruct (parse_value f t) as [[v1 r1]|] eqn:E1; [| reflexivity].
      cbn. apply Cv in E1. rewrite <- (IHe r1) by lia. reflexivity. }
    destruct (Ascii.eqb c "{"); [| reflexivity].
    destruct (starts_with "}" (skip_ws t)); [reflexivity |].
    destruct (parse_key t) as [[k r1]|] eqn:K; [| reflexivity]. cbn.
    apply parse_key_length in K. rewrite <- (IHv r1) by lia.
    destruct (parse_value f r1) as [[v1 r2]|] eqn:E1; [| reflexivity].
    cbn. apply Cv in E1. rewrite <- (IHm r2) by lia. reflexivity.
  - cbn [parse_elements].
    destruct (skip_ws s) as [|c t]; [reflexivity |]. simpl in Hs.
    destruct (Ascii.eqb c "]"); [reflexivity |].
    destruct (Ascii.eqb c ","); [| reflexivity].
    rewrite <- (IHv t) by lia.
    destruct (parse_value f t) as [[v1 r1]|] eqn:E1; [| reflexivity].
    cbn. apply Cv in E1. rewrite <- (IHe r1) by lia. reflexivity.
  - cbn [parse_members].
    destruct (skip_ws s) as [|c t]; [reflexivity |]. simpl in Hs.
    destruct (Ascii.eqb c "}"); [reflexivity |].
    destruct (Ascii.eqb c ","); [| reflexivity].
    destruct (parse_key t) as [[k r1]|] eqn:K; [| reflexivity]. cbn.
    apply parse_key_length in K. rewrite <- (IHv r1) by lia.
    destruct (parse_value f r1) as [[v1 r2]|] eqn:E1; [| reflexivity].
    cbn. apply Cv in E1. rewrite <- (IHm r2) by lia. reflexivity.
Qed.

(** More fuel than [JSON_parse] starts with changes nothing: a [SyntaxError]
    is never a lack of fuel. *)
Lemma JSON_parse_fuel text fuel :
  (String.length text < fuel)%nat ->
  parse_value fuel text = parse_value (S (String.length text)) text.
Proof. intros H. apply (proj1 (parse_fuel _ _)); lia. Qed.

(** ** A mutation read back *)

Lemma stored_record_ok course lesson w v :
  fst (genProgressForLesson course (Some lesson) w) = Normal v ->
  all_finite v = true -> json_ok v = true.
Proof.
  rewrite genProgressForLesson_some. cbn [fst].
  destruct (storage w !! progress_key course lesson) as [text|].
  - apply JSON_parse_ok.
  - now intros [= <-].
Qed.

Lemma genProgressForLesson_reads_storage course lesson w1 w2 :
  storage w1 = storage w2 ->
  fst (genProgressForLesson course lesson w1)
  = fst (genProgressForLesson course lesson w2).
Proof.
  intros H. destruct lesson as [lesson|]; [| reflexivity].
  rewrite !genProgressForLesson_some. cbn [fst]. now rewrite H.
Qed.

(** C3, as amended: where the progress key of [(C, L)] is unset or holds a
    text that decodes to an object in which every number is finite (a
    number too large for a double decodes to [Infinity], which
    [JSON.stringify] writes as [null]), and [N] is a finite number, the
    record read after [genUpdateProgressForLesson(C, L, N)] has
    [progress = N] and the [finished] it had before ([false] where the key
    was unset); the record read after [genMarkLessonFinished(C, L)] has
    [finished = true] and the [progress] it had before. *)
Theorem progress_record_after_mutation
    (course : Course) (lesson N : number) (w : World)
    (old : list (string * JSValue)) :
  number_wf lesson = true -> number_wf N = true -> Number_isFinite N = true ->
  fst (genProgressForLesson course (Some lesson) w) = Normal (JSObject old) ->
  all_finite (JSObject old) = true ->
  (storage w !! progress_key course lesson = None ->
   get_prop "finished" old = Some (JSBool false))
  /\ (exists w' new,
        genUpdateProgressForLesson course lesson N w = (Normal tt, w')
        /\ fst (genProgressForLesson course (Some lesson) w') = Normal (JSObject new)
        /\ get_prop "progress" new = Some (JSNumber N)
        /\ get_prop "finished" new = get_prop "finished" old)
  /\ (exists w' new,
        genMarkLessonFinished course lesson w = (Normal tt, w')
        /\ fst (genProgressForLesson course (Some lesson) w') = Normal (JSObject new)
        /\ get_prop "finished" new = Some (JSBool true)
        /\ get_prop "progress" new = get_prop "progress" old).
Proof.
  intros Hlesson HN Hfin Hold Hfinite.
  pose proof (stored_record_ok _ _ _ _ Hold Hfinite) as Hok.
  split; [| split].
  - intros Hunset. rewrite genProgressForLesson_some in Hold. cbn [fst] in Hold.
    rewrite Hunset in Hold. now injection Hold as <-.
  - eexists _, (set_prop "progress" (JSNumber N) old).
    rewrite genUpdateProgressForLesson_run, Hold. cbn [own_props].
    split; [reflexivity |]. split; [| split].
    + apply read_written; [exact Hlesson |].
      apply json_ok_set_prop; [exact Hok |]. cbn [json_ok]. now rewrite HN, Hfin.
    + apply get_prop_set_prop.
    + now apply get_prop_set_prop_ne.
  - exists (snd (genMarkLessonFinished course lesson w)),
      (set_prop "finished" (JSBool true) old).
    rewrite genMarkLessonFinished_split, Hold. cbn [own_props].
    set (text := JSON_stringify _).
    destruct (delete_if_wanted_run course lesson (written course lesson text w))
      as (Hdone & Hstore & _).
    split; [| split; [| split]].
    + destruct (delete_if_wanted _ _ _) as [r w']. cbn [fst] in Hdone.
      now rewrite Hdone.
    + rewrite (genProgressForLesson_reads_storage _ _ _ _ Hstore).
      apply read_written; [exact Hlesson |].
      now apply json_ok_set_prop.
    + apply get_prop_set_prop.
    + now apply get_prop_set_prop_ne.
Qed.

(** ** The metrics token *)

Lemma genMetricsToken_stored w c t :
  storage w !! "@metrics/user-token" = Some (String c t) ->
  genMetricsToken w = (Normal (String c t), record (GetItem "@metrics/user-token") w).
Proof. intros H. unfold genMetricsToken. run. now rewrite H. Qed.

Lemma genMetricsToken_created w :
  match storage w !! "@metrics/user-token" with
  | Some (String _ _) => False
  | _ => True
  end ->
  exists w',
    genMetricsToken w = (Normal (unsafeStringify (v4_bytes (entropy w))), w')
    /\ storage w' = <["@metrics/user-token" := unsafeStringify (v4_bytes (entropy w))]>
                      (storage w)
    /\ entropy w' = (fun i => entropy w (16 + i)%nat).
Proof.
  intros H. unfold genMetricsToken. run.
  destruct (storage w !! "@metrics/user-token") as [[|c t]|]; try contradiction;
    run; eexists; repeat split; reflexivity.
Qed.

Lemma genMetricsToken_twice_then_deleted (w : World) :
  exists token w1 w2 w3,
    genMetricsToken w = (Normal token, w1)
    /\ genMetricsToken w1 = (Normal token, w2)
    /\ storage w2 = storage w1
    /\ genMetricsToken (snd (genDeleteMetricsToken w2))
       = (Normal (unsafeStringify (v4_bytes (entropy w2))), w3)
    /\ storage w3 !! "@metrics/user-token"
       = Some (unsafeStringify (v4_bytes (entropy w2)))
    /\ match storage w !! "@metrics/user-token" with
       | Some (String c t) => token = String c t /\ entropy w2 = entropy w
       | _ =>
           token = unsafeStringify (v4_bytes (entropy w))
           /\ entropy w2 = (fun i => entropy w (16 + i)%nat)
       end.
Proof.
  assert (Hagain : forall token w1,
             storage w1 !! "@metrics/user-token" = Some token -> token <> "" ->
             exists w2 w3,
               genMetricsToken w1 = (Normal token, w2)
               /\ storage w2 = storage w1
               /\ genMetricsToken (snd (genDeleteMetricsToken w2))
                  = (Normal (unsafeStringify (v4_bytes (entropy w2))), w3)
               /\ storage w3 !! "@metrics/user-token"
                  = Some (unsafeStringify (v4_bytes (entropy w2)))
               /\ entropy w2 = entropy w1).
  { intros token w1 Hstored Hne. destruct token as [|c t]; [congruence |].
    exists (record (GetItem "@metrics/user-token") w1).
    destruct (genMetricsToken_created
                (snd (genDeleteMetricsToken
                        (record (GetItem "@metrics/user-token") w1))))
      as (w3 & Hrun & Hstore & _).
    { unfold genDeleteMetricsToken. run. now rewrite lookup_delete_eq. }
    exists w3. split; [now apply genMetricsToken_stored |].
    split; [reflexivity |]. split; [exact Hrun |].
    split; [| reflexivity]. rewrite Hstore. apply lookup_insert_eq. }
  assert (Hfresh : match storage w !! "@metrics/user-token" with
                   | Some (String _ _) => False
                   | _ => True
                   end ->
                   exists w1 w2 w3,
                     genMetricsToken w
                     = (Normal (unsafeStringify (v4_bytes (entropy w))), w1)
                     /\ genMetricsToken w1
                        = (Normal (unsafeStringify (v4_bytes (entropy w))), w2)
                     /\ storage w2 = storage w1
                     /\ genMetricsToken (snd (genDeleteMetricsToken w2))
                        = (Normal (unsafeStringify (v4_bytes (entropy w2))), w3)
                     /\ storage w3 !! "@metrics/user-token"
                        = Some (unsafeStringify (v4_bytes (entropy w2)))
                     /\ entropy w2 = (fun i => entropy w (16 + i)%nat)).
  { intros Hunset.
    destruct (genMetricsToken_created w Hunset) as (w1 & Hrun & Hstore & Hentropy).
    destruct (uuid_truthy (entropy w)) as (c & t & Hc).
    destruct (Hagain (unsafeStringify (v4_bytes (entropy w))) w1)
      as (w2 & w3 & H2 & Hsame & H3 & Hkey & Hentropy2);
      [rewrite Hstore; apply lookup_insert_eq | now rewrite Hc |].
    exists w1, w2, w3. repeat (split; [assumption |]). now rewrite Hentropy2. }
  destruct (storage w !! "@metrics/user-token") as [[|c t]|] eqn:Hstored.
  - destruct (Hfresh I) as (w1 & w2 & w3 & H1 & H2 & Hsame & H3 & Hkey & Hentropy).
    exists (unsafeStringify (v4_bytes (entropy w))), w1, w2, w3. auto 10.
  - destruct (Hagain (String c t) (record (GetItem "@metrics/user-token") w))
      as (w2 & w3 & H2 & Hsame & H3 & Hkey & Hentropy); [exact Hstored | discriminate |].
    exists (String c t), (record (GetItem "@metrics/user-token") w), w2, w3.
    split; [now apply genMetricsToken_stored |]. auto 10.
  - destruct (Hfresh I) as (w1 & w2 & w3 & H1 & H2 & Hsame & H3 & Hkey & Hentropy).
    exists (unsafeStringify (v4_bytes (entropy w))), w1, w2, w3. auto 10.
Qed.

(** C7: two calls of [genMetricsToken] in sequence return the same token
    and the second leaves the store as it found it; after
    [genDeleteMetricsToken], the next call returns and stores the uuid it
    makes from the sixteen random bytes then drawn.  That uuid is a new
    token, different from the one returned before, as soon as the bytes
    drawn differ, in any of the 122 bits a uuid keeps, from the bytes the
    earlier token was made of: no random bit is lost in a uuid.  Where the
    first call made the token, it made it from the first sixteen bytes of the
    random source, and the bytes drawn after the deletion are the sixteen
    that follow. *)
Theorem metrics_token_kept_until_deleted (w : World) :
  let first := genMetricsToken w in
  let second := genMetricsToken (snd first) in
  let third := genMetricsToken (snd (genDeleteMetricsToken (snd second))) in
  let drawn := entropy (snd second) in
  (exists token, fst first = Normal token /\ fst second = Normal token)
  /\ storage (snd second) = storage (snd first)
  /\ fst third = Normal (unsafeStringify (v4_bytes drawn))
  /\ storage (snd third) !! "@metrics/user-token"
     = Some (unsafeStringify (v4_bytes drawn))
  /\ (forall earlier,
        fst first = Normal (unsafeStringify (v4_bytes earlier)) ->
        differ earlier drawn ->
        fst third <> fst first)
  /\ match storage w !! "@metrics/user-token" with
     | Some (String c t) =>
         fst first = Normal (String c t) /\ forall i, drawn i = entropy w i
     | _ =>
         fst first = Normal (unsafeStringify (v4_bytes (entropy w)))
         /\ forall i, drawn i = entropy w (16 + i)%nat
     end.
Proof.
  cbv zeta.
  destruct (genMetricsToken_twice_then_deleted w)
    as (token & w1 & w2 & w3 & H1 & H2 & Hstore & H3 & Hkey & Hmade).
  rewrite H1. cbn [fst snd]. rewrite H2. cbn [fst snd]. rewrite H3. cbn [fst snd].
  split; [now exists token |]. split; [exact Hstore |].
  split; [reflexivity |]. split; [exact Hkey |]. split.
  - intros earlier Hfirst Hdiffer Heq. apply (uuid_differ _ _ Hdiffer). congruence.
  - destruct (storage w !! "@metrics/user-token") as [[|c t]|];
      destruct Hmade as [-> ->]; split; reflexivity.
Qed.

(** ** Stored text of the wrong shape *)

Lemma parseInt_not_numeric s : not_numeric s = true -> parseInt s = NaN.
Proof.
  unfold not_numeric, parseInt. destruct (trim_start s) as [|c t]; [reflexivity |].
  destruct (Ascii.eqb c "-") eqn:Eminus; cbn [orb].
  - destruct t as [|d u]; [reflexivity |]. intros Hd%negb_true_iff.
    cbn [span_digits]. now rewrite Hd.
  - destruct (Ascii.eqb c "+") eqn:Eplus.
    + destruct t as [|d u]; [reflexivity |]. intros Hd%negb_true_iff.
      cbn [span_digits]. now rewrite Hd.
    + intros Hc%negb_true_iff. cbn [span_digits]. now rewrite Hc.
Qed.

(** C2, as amended: a progress key holding malformed JSON makes
    [genProgressForLesson] reject with the [SyntaxError] of [JSON.parse],
    not caught and not replaced by a default; a recency key holding any text
    never makes [genMostRecentListenedLessonForCourse] reject: it returns
    what [parseInt] makes of the text, which is [NaN] for a text that is
    not numeric. *)
Theorem decode_failure_of_stored_text (course : Course) (w : World) (text : string) :
  (forall lesson,
     storage w !! progress_key course lesson = Some text ->
     JSON_parse text = Throw SyntaxError ->
     fst (genProgressForLesson course (Some lesson) w) = Throw SyntaxError)
  /\ (storage w !! recent_lesson_key course = Some text ->
      fst (genMostRecentListenedLessonForCourse course w)
      = Normal (Some (parseInt text))
      /\ (not_numeric text = true ->
          fst (genMostRecentListenedLessonForCourse course w) = Normal (Some NaN))).
Proof.
  split.
  - intros lesson Hstored Hparse. rewrite genProgressForLesson_some. cbn [fst].
    now rewrite Hstored.
  - intros Hstored.
    assert (H : fst (genMostRecentListenedLessonForCourse course w)
                = Normal (Some (parseInt text))).
    { unfold genMostRecentListenedLessonForCourse. run. now rewrite Hstored. }
    split; [exact H |]. intros Hnot. now rewrite H, parseInt_not_numeric.
Qed.

(** ** Preferences set and read back *)

Lemma preference_set_get name defaultValue fromString val text w :
  ToString val = Normal text ->
  fst ((snd (preference name defaultValue fromString) val ;;;
        fst (preference name defaultValue fromString)) w)
  = fromString text.
Proof.
  intros Htext. unfold preference. cbn [fst snd]. run. rewrite Htext. run.
  rewrite lookup_insert_eq. run. now destruct (fromString text).
Qed.

Ltac unfold_exported :=
  unfold genPreferenceAutoDeleteFinished, genSetPreferenceAutoDeleteFinished,
    genPreferenceStreamQuality, genSetPreferenceStreamQuality,
    genPreferenceDownloadQuality, genSetPreferenceDownloadQuality,
    genPreferenceDownloadOnlyOnWifi, genSetPreferenceDownloadOnlyOnWifi,
    genPreferenceAllowDataCollection, genSetPreferenceAllowDataCollection,
    genPreferenceIsFirstLoad, genSetPreferenceIsFirstLoad,
    genPreferenceRatingButtonDismissed, genSetPreferenceRatingButtonDismissed,
    genPreferenceKillswitchCourseVersionV1,
    genSetPreferenceKillswitchCourseVersionV1.

(** An object handed to the setter of rating-button-dismissed is stored as
    ["[object Object]"] and cannot be read again. *)
Lemma rating_button_object_unreadable props w :
  get_prop "toString" props = None ->
  fst ((genSetPreferenceRatingButtonDismissed (JSObject props) ;;;
        genPreferenceRatingButtonDismissed) w)
  = Throw SyntaxError.
Proof.
  intros Hplain.
  unfold genSetPreferenceRatingButtonDismissed, genPreferenceRatingButtonDismissed.
  rewrite (preference_set_get _ _ _ _ "[object Object]").
  - vm_compute. reflexivity.
  - cbn [ToString]. now rewrite Hplain.
Qed.

(** C1, as amended: for the five preferences decoded as booleans and every
    boolean, and for the two decoded as they are and every string, the
    setter followed by the getter returns the value set.  The setter of
    rating-button-dismissed stores ['' + val] like the others: given the
    [JSON.stringify] text of a value, the getter returns that value. *)
Theorem preference_set_then_get (name : Preference) (w : World) :
  (declared_decode name = BooleanParse ->
   forall b : bool,
     fst ((snd (exported name) (JSBool b) ;;; fst (exported name)) w)
     = Normal (JSBool b))
  /\ (declared_decode name = Passthrough ->
      forall s : string,
        fst ((snd (exported name) (JSString s) ;;; fst (exported name)) w)
        = Normal (JSString s))
  /\ (declared_decode name = JsonParse ->
      forall V : JSValue,
        json_ok V = true ->
        fst ((snd (exported name) (JSString (JSON_stringify V)) ;;;
              fst (exported name)) w)
        = Normal V).
Proof.
  repeat split.
  - intros Hrule b.
    destruct name; try discriminate Hrule; cbn [exported fst snd];
      unfold_exported;
      match goal with
      | |- context [snd (preference ?n ?d ?f)] =>
          rewrite (preference_set_get n d f (JSBool b) (if b then "true" else "false"))
            by reflexivity
      end; now destruct b.
  - intros Hrule s.
    destruct name; try discriminate Hrule; cbn [exported fst snd];
      unfold_exported;
      match goal with
      | |- context [snd (preference ?n ?d ?f)] =>
          rewrite (preference_set_get n d f (JSString s) s) by reflexivity
      end; reflexivity.
  - intros Hrule V Hok.
    destruct name; try discriminate Hrule. cbn [exported fst snd].
    unfold_exported.
    rewrite (preference_set_get _ _ _ _ (JSON_stringify V)) by reflexivity.
    now apply JSON_parse_stringify.
Qed.

(** ** The claims on concrete devices *)

Ltac conjuncts := cbv zeta; repeat match goal with |- _ /\ _ => split end.

Example toString_examples :
  Number_toString (int 42) = "42"
  /\ Number_toString (int (-1200)) = "-1200"
  /\ Number_toString (Finite false "12345" 2) = "12.345"
  /\ Number_toString (Finite false "5" (-2)) = "0.005"
  /\ Number_toString (Finite false "15" (-6)) = "1.5e-7"
  /\ Number_toString (Finite false "1" 22) = "1e+21".
Proof. conjuncts; vm_compute; reflexivity. Qed.

Example JSON_parse_examples :
  JSON_parse (quoted "{ 'finished' : true, 'progress':12.5 }")
  = Normal (JSObject [("finished", JSBool true);
                      ("progress", JSNumber (Finite false "125" 2))])
  /\ JSON_parse "[object Object]" = Throw SyntaxError
  /\ JSON_parse "{" = Throw SyntaxError
  /\ JSON_parse "01" = Throw SyntaxError
  /\ JSON_parse "[1,]" = Throw SyntaxError.
Proof. conjuncts; vm_compute; reflexivity. Qed.

(** A number is read as the double nearest to it. *)
Example rounding_examples :
  JSON_parse "9007199254740993" = Normal (JSNumber (int 9007199254740992))
  /\ JSON_parse "0.30000000000000003"
     = Normal (JSNumber (Finite false "30000000000000004" 0))
  /\ JSON_parse "1e999" = Normal (JSNumber (Infinity false))
  /\ JSON_parse "-1e999" = Normal (JSNumber (Infinity true))
  /\ JSON_parse "1e-999" = Normal (JSNumber Zero)
  /\ JSON_parse "5e-324" = Normal (JSNumber (Finite false "5" (-323)))
  /\ JSON_stringify (JSNumber (Infinity false)) = "null".
Proof. conjuncts; vm_compute; reflexivity. Qed.

(** [parseInt] skips the white space of Unicode (here U+00A0 and U+FEFF),
    stops at the first character that is no digit, and rounds to a double. *)
Example parseInt_examples :
  parseInt "  42px" = int 42
  /\ parseInt (String "194" (String "160" "42")) = int 42
  /\ parseInt (String "239" (String "187" (String "191" "-7"))) = int (-7)
  /\ parseInt "9007199254740993" = int 9007199254740992
  /\ parseInt ("1" +:+ zeros 399) = Infinity false
  /\ parseInt "-0" = Zero
  /\ parseInt "1e3" = int 1
  /\ parseInt "" = NaN
  /\ parseInt "abc" = NaN.
Proof. conjuncts; vm_compute; reflexivity. Qed.

(** The scenario of the specification: a fresh store, lesson 3 of
    [algebra-1], progress 42. *)
Example fresh_store_scenario :
  fst (genProgressForLesson "algebra-1" (Some (int 3)) (device [] []))
  = Normal (JSObject [("finished", JSBool false); ("progress", JSNull)])
  /\ fst ((genUpdateProgressForLesson "algebra-1" (int 3) (int 42) ;;;
           genProgressForLesson "algebra-1" (Some (int 3))) (device [] []))
     = Normal (JSObject [("finished", JSBool false); ("progress", JSNumber (int 42))])
  /\ fst ((genUpdateProgressForLesson "algebra-1" (int 3) (int 42) ;;;
           genMostRecentListenedCourse) (device [] []))
     = Normal (Some "algebra-1").
Proof. conjuncts; vm_compute; reflexivity. Qed.

(** C1 fails for rating-button-dismissed: an object passed to the setter is
    stored as ["[object Object]"], on which the getter's [JSON.parse]
    throws. *)
Lemma rating_button_object_not_read_back :
  storage
    (snd (genSetPreferenceRatingButtonDismissed
            (JSObject [("dismissed", JSBool true)]) (device [] [])))
    !! "@preferences/rating-button-dismissed"
  = Some "[object Object]"
  /\ fst ((genSetPreferenceRatingButtonDismissed
             (JSObject [("dismissed", JSBool true)]) ;;;
           genPreferenceRatingButtonDismissed) (device [] []))
     = Throw SyntaxError.
Proof. split; vm_compute; reflexivity. Qed.

(** C2 fails for the recency key: on a text that is not numeric
    [genMostRecentListenedLessonForCourse] returns [NaN]; nothing is
    thrown. *)
Lemma non_numeric_recency_is_NaN :
  fst (genMostRecentListenedLessonForCourse "spanish"
         (device [("@activity/spanish/most-recent-lesson", "abc")] []))
  = Normal (Some NaN).
Proof. vm_compute; reflexivity. Qed.

(** C3 fails for [N = NaN], which [JSON.stringify] writes as [null]; for a
    store whose progress key holds malformed JSON, on which the update
    rejects before it writes; and for a stored record with a number too
    large for a double, which decodes to [Infinity] and is written back as
    [null], so that [progress] is not what it was before. *)
Lemma progress_not_read_back :
  fst ((genUpdateProgressForLesson "spanish" (int 3) NaN ;;;
        genProgressForLesson "spanish" (Some (int 3))) (device [] []))
  = Normal (JSObject [("finished", JSBool false); ("progress", JSNull)])
  /\ genUpdateProgressForLesson "spanish" (int 3) (int 42)
       (device [("@activity/spanish/3", "{")] [])
     = (Throw SyntaxError,
        record (GetItem "@activity/spanish/3")
          (device [("@activity/spanish/3", "{")] []))
  /\ (let w := device [("@activity/spanish/3",
                        quoted "{'finished':false,'progress':1e999}")] [] in
      fst (genProgressForLesson "spanish" (Some (int 3)) w)
      = Normal (JSObject [("finished", JSBool false);
                          ("progress", JSNumber (Infinity false))])
      /\ fst ((genMarkLessonFinished "spanish" (int 3) ;;;
               genProgressForLesson "spanish" (Some (int 3))) w)
         = Normal (JSObject [("finished", JSBool true); ("progress", JSNull)])).
Proof. conjuncts; vm_compute; reflexivity. Qed.

(** C6 fails where the stored progress record does not decode: with the
    preference enabled and the lesson downloaded, the call rejects before
    it reaches the download manager, and no download is deleted. *)
Lemma no_deletion_when_record_malformed :
  let w := device [("@activity/spanish/3", "{");
                   ("@preferences/auto-delete-finished", "true")]
                  [("spanish", int 3)] in
  fst (genPreferenceAutoDeleteFinished w) = Normal (JSBool true)
  /\ fst (DownloadManager.genIsDownloaded "spanish" (int 3) w) = Normal true
  /\ fst (genMarkLessonFinished "spanish" (int 3) w) = Throw SyntaxError
  /\ deletions (calls (snd (genMarkLessonFinished "spanish" (int 3) w))) = [].
Proof. conjuncts; vm_compute; reflexivity. Qed.

(** The condition of C7 on the random bytes is needed: where the random
    source repeats itself, the token made after the deletion is the token
    deleted. *)
Example same_token_after_deletion :
  let first := genMetricsToken stuck_random_source in
  let second := genMetricsToken (snd first) in
  let third := genMetricsToken (snd (genDeleteMetricsToken (snd second))) in
  fst second = fst first /\ fst third = fst first.
Proof. split; vm_compute; reflexivity. Qed.

(** ** The theorems at concrete inputs *)

Lemma genProgressForLesson_absent_or_unset_witness :
  storage (device [] []) !! progress_key "spanish" (int 3) = None
  /\ fst (genProgressForLesson "spanish" (Some (int 3)) (device [] []))
     = Normal (JSObject [("finished", JSBool false); ("progress", JSNull)]).
Proof.
  split; [vm_compute; reflexivity |].
  apply (proj2 (genProgressForLesson_absent_or_unset "spanish" (device [] []))).
  vm_compute; reflexivity.
Defined.

Lemma preference_default_not_persisted_witness :
  storage (device [] []) !! "@preferences/rating-button-dismissed" = None
  /\ fst (genPreferenceRatingButtonDismissed (device [] []))
     = Normal (JSObject [("dismissed", JSBool false)])
  /\ storage (snd (genPreferenceRatingButtonDismissed (device [] [])))
     = storage (device [] []).
Proof.
  split; [vm_compute; reflexivity |].
  apply (preference_default_not_persisted RATING_BUTTON_DISMISSED (device [] [])).
  vm_compute; reflexivity.
Defined.

Lemma genMetricsToken_empty_string_regenerated_witness :
  let w := device [("@metrics/user-token", "")] [] in
  storage w !! "@metrics/user-token" = Some ""
  /\ exists token w',
       genMetricsToken w = (Normal token, w')
       /\ token = unsafeStringify (v4_bytes (entropy w))
       /\ token <> ""
       /\ storage w' = <["@metrics/user-token" := token]> (storage w)
       /\ storage w' !! "@metrics/user-token" = Some token
       /\ String.length token = 36%nat
       /\ (forall rnds,
             token = unsafeStringify (v4_bytes rnds) ->
             forall i, (i < 16)%nat -> kept_bits i (rnds i) = kept_bits i (entropy w i))
       /\ (forall rnds,
             differ rnds (entropy w) -> unsafeStringify (v4_bytes rnds) <> token)
       /\ (forall i, entropy w' i = entropy w (16 + i)%nat).
Proof.
  cbv zeta. split; [vm_compute; reflexivity |].
  apply (genMetricsToken_empty_string_regenerated
           (device [("@metrics/user-token", "")] [])).
  vm_compute; reflexivity.
Defined.

Lemma recency_pointers_after_update_witness :
  number_wf (int 3) = true
  /\ is_lesson_index (int 3) = true
  /\ fst (genUpdateProgressForLesson "spanish" (int 3) (Finite false "125" 2)
            (device [("@activity/most-recent-course", "arabic")] []))
     = Normal tt
  /\ fst (genMostRecentListenedCourse
            (snd (genUpdateProgressForLesson "spanish" (int 3) (Finite false "125" 2)
                    (device [("@activity/most-recent-course", "arabic")] []))))
     = Normal (Some "spanish")
  /\ fst (genMostRecentListenedLessonForCourse "spanish"
            (snd (genUpdateProgressForLesson "spanish" (int 3) (Finite false "125" 2)
                    (device [("@activity/most-recent-course", "arabic")] []))))
     = Normal (Some (int 3)).
Proof.
  split; [vm_compute; reflexivity |]. split; [vm_compute; reflexivity |].
  split; [vm_compute; reflexivity |].
  apply (recency_pointers_after_update "spanish" (int 3) (Finite false "125" 2)
           (device [("@activity/most-recent-course", "arabic")] []));
    vm_compute; reflexivity.
Defined.

Lemma genDeleteProgressForCourse_removes_witness :
  (let w := device [("@activity/most-recent-course", "spanish");
                    ("@activity/spanish/2", quoted "{'finished':true,'progress':7}")]
                   [] in
   In (int 2) (lessonIndices w "spanish")
   /\ storage w !! recent_course_key = Some "spanish"
   /\ storage (snd (genDeleteProgressForCourse "spanish" w))
        !! progress_key "spanish" (int 2) = None
   /\ fst (genMostRecentListenedCourse (snd (genDeleteProgressForCourse "spanish" w)))
      = Normal None)
  /\ (let w := device [("@activity/most-recent-course", "arabic")] [] in
      storage w !! recent_course_key = Some "arabic"
      /\ "arabic" <> "spanish"
      /\ fst (genMostRecentListenedCourse (snd (genDeleteProgressForCourse "spanish" w)))
         = Normal (Some "arabic")).
Proof.
  split; cbv zeta.
  - split; [right; left; reflexivity |]. split; [vm_compute; reflexivity |].
    match goal with
    | |- context [genDeleteProgressForCourse "spanish" ?w] =>
        destruct (genDeleteProgressForCourse_removes "spanish" w)
          as (_ & Hlessons & _ & Hsame & _)
    end.
    split.
    + apply Hlessons. right; left; reflexivity.
    + apply Hsame. vm_compute; reflexivity.
  - split; [vm_compute; reflexivity |]. split; [discriminate |].
    match goal with
    | |- context [genDeleteProgressForCourse "spanish" ?w] =>
        destruct (genDeleteProgressForCourse_removes "spanish" w)
          as (_ & _ & _ & _ & Hother)
    end.
    apply Hother; [vm_compute; reflexivity | discriminate].
Defined.

Lemma metrics_token_kept_until_deleted_witness :
  let first := genMetricsToken (device [] []) in
  let second := genMetricsToken (snd first) in
  let third := genMetricsToken (snd (genDeleteMetricsToken (snd second))) in
  fst first = Normal (unsafeStringify (v4_bytes (fun i => N.of_nat i)))
  /\ differ (fun i => N.of_nat i) (entropy (snd second))
  /\ fst third <> fst first.
Proof.
  cbv zeta.
  assert (Hfirst : fst (genMetricsToken (device [] []))
                   = Normal (unsafeStringify (v4_bytes (fun i => N.of_nat i))))
    by (vm_compute; reflexivity).
  assert (Hdiffer : differ (fun i => N.of_nat i)
                      (entropy (snd (genMetricsToken
                                       (snd (genMetricsToken (device [] [])))))))
    by (exists 0%nat; split; [lia | vm_compute; discriminate]).
  split; [exact Hfirst |]. split; [exact Hdiffer |].
  exact (proj1 (proj2 (proj2 (proj2 (proj2
           (metrics_token_kept_until_deleted (device [] []))))))
           (fun i => N.of_nat i) Hfirst Hdiffer).
Defined.

Lemma progress_record_after_mutation_witness :
  let w := device [("@activity/spanish/3", quoted "{'finished':true,'progress':1.5}")]
                  [] in
  let old := [("finished", JSBool true); ("progress", JSNumber (Finite false "15" 1))] in
  number_wf (int 3) = true
  /\ number_wf (Finite false "125" 2) = true
  /\ Number_isFinite (Finite false "125" 2) = true
  /\ fst (genProgressForLesson "spanish" (Some (int 3)) w) = Normal (JSObject old)
  /\ all_finite (JSObject old) = true
  /\ (exists w' new,
        genUpdateProgressForLesson "spanish" (int 3) (Finite false "125" 2) w
        = (Normal tt, w')
        /\ fst (genProgressForLesson "spanish" (Some (int 3)) w') = Normal (JSObject new)
        /\ get_prop "progress" new = Some (JSNumber (Finite false "125" 2))
        /\ get_prop "finished" new = get_prop "finished" old)
  /\ (exists w' new,
        genMarkLessonFinished "spanish" (int 3) w = (Normal tt, w')
        /\ fst (genProgressForLesson "spanish" (Some (int 3)) w') = Normal (JSObject new)
        /\ get_prop "finished" new = Some (JSBool true)
        /\ get_prop "progress" new = get_prop "progress" old).
Proof.
  cbv zeta.
  split; [vm_compute; reflexivity |]. split; [vm_compute; reflexivity |].
  split; [vm_compute; reflexivity |].
  split; [vm_compute; reflexivity |]. split; [reflexivity |].
  apply (progress_record_after_mutation "spanish" (int 3) (Finite false "125" 2)
           (device [("@activity/spanish/3",
                     quoted "{'finished':true,'progress':1.5}")] [])
           [("finished", JSBool true); ("progress", JSNumber (Finite false "15" 1))]);
    vm_compute; reflexivity.
Defined.

Lemma auto_delete_on_finish_witness :
  let w := device [("@preferences/auto-delete-finished", "true")]
                  [("spanish", int 3)] in
  let w_off := device [("@preferences/auto-delete-finished", "false")]
                      [("spanish", int 3)] in
  fst (genPreferenceAutoDeleteFinished w) = Normal (JSBool true)
  /\ fst (DownloadManager.genIsDownloaded "spanish" (int 3) w) = Normal true
  /\ fst (genMarkLessonFinished "spanish" (int 3) w) = Normal tt
  /\ deletions (calls (snd (genMarkLessonFinished "spanish" (int 3) w)))
     = (deletions (calls w) ++ [("spanish", int 3)])%list
  /\ fst (genPreferenceAutoDeleteFinished w_off) = Normal (JSBool false)
  /\ deletions (calls (snd (genMarkLessonFinished "spanish" (int 3) w_off)))
     = deletions (calls w_off).
Proof.
  cbv zeta.
  split; [vm_compute; reflexivity |]. split; [vm_compute; reflexivity |].
  split; [vm_compute; reflexivity |]. split.
  - apply (proj1 (auto_delete_on_finish "spanish" (int 3)
                    (device [("@preferences/auto-delete-finished", "true")]
                            [("spanish", int 3)])));
      vm_compute; reflexivity.
  - split; [vm_compute; reflexivity |].
    apply (proj2 (auto_delete_on_finish "spanish" (int 3)
                    (device [("@preferences/auto-delete-finished", "false")]
                            [("spanish", int 3)]))).
    vm_compute; reflexivity.
Defined.

Lemma decode_failure_of_stored_text_witness :
  let w := device [("@activity/spanish/3", "{'finished': true");
                   ("@activity/spanish/most-recent-lesson", "three")] [] in
  storage w !! progress_key "spanish" (int 3) = Some "{'finished': true"
  /\ JSON_parse "{'finished': true" = Throw SyntaxError
  /\ fst (genProgressForLesson "spanish" (Some (int 3)) w) = Throw SyntaxError
  /\ storage w !! recent_lesson_key "spanish" = Some "three"
  /\ not_numeric "three" = true
  /\ fst (genMostRecentListenedLessonForCourse "spanish" w) = Normal (Some NaN).
Proof.
  cbv zeta.
  split; [vm_compute; reflexivity |]. split; [vm_compute; reflexivity |]. split.
  - apply (proj1 (decode_failure_of_stored_text "spanish"
                    (device [("@activity/spanish/3", "{'finished': true");
                             ("@activity/spanish/most-recent-lesson", "three")] [])
                    "{'finished': true") (int 3));
      vm_compute; reflexivity.
  - split; [vm_compute; reflexivity |]. split; [reflexivity |].
    apply (proj2 (decode_failure_of_stored_text "spanish"
                    (device [("@activity/spanish/3", "{'finished': true");
                             ("@activity/spanish/most-recent-lesson", "three")] [])
                    "three"));
      vm_compute; reflexivity.
Defined.

Lemma preference_set_then_get_witness :
  declared_decode DOWNLOAD_ONLY_ON_WIFI = BooleanParse
  /\ fst ((genSetPreferenceDownloadOnlyOnWifi (JSBool false) ;;;
           genPreferenceDownloadOnlyOnWifi) (device [] []))
     = Normal (JSBool false)
  /\ declared_decode STREAM_QUALITY = Passthrough
  /\ fst ((genSetPreferenceStreamQuality (JSString "high") ;;;
           genPreferenceStreamQuality) (device [] []))
     = Normal (JSString "high")
  /\ declared_decode RATING_BUTTON_DISMISSED = JsonParse
  /\ json_ok (JSObject [("dismissed", JSBool true)]) = true
  /\ fst ((genSetPreferenceRatingButtonDismissed
             (JSString (JSON_stringify (JSObject [("dismissed", JSBool true)]))) ;;;
           genPreferenceRatingButtonDismissed) (device [] []))
     = Normal (JSObject [("dismissed", JSBool true)]).
Proof.
  split; [reflexivity |]. split.
  - apply (proj1 (preference_set_then_get DOWNLOAD_ONLY_ON_WIFI (device [] []))).
    reflexivity.
  - split; [reflexivity |]. split.
    + apply (proj1 (proj2 (preference_set_then_get STREAM_QUALITY (device [] [])))).
      reflexivity.
    + split; [reflexivity |]. split; [reflexivity |].
      apply (proj2 (proj2 (preference_set_then_get RATING_BUTTON_DISMISSED
                             (device [] [])))); reflexivity.
Defined.
